(** * Assignment plagiarism checker: TF-IDF vectors, cosine similarity, CSV report

    A shallow embedding of the C++ sources
      - [FeatureExtractor.cpp]  (vocabulary, TF, IDF, TF-IDF vectors),
      - [SimilarityChecker.cpp] (dot product, magnitude, cosine, all pairs),
      - [ReportWriter.cpp]      (the CSV report),
    and the properties the specification states about them.

    Data is modelled the way the code has it:
      - [double] is IEEE-754 binary64, Rocq's primitive [float], with the
        operations of the processor ([+], [*], [/], [sqrt], comparisons);
      - [std::map<std::string, V>] and [std::set<std::string>] are lists kept
        strictly increasing in the keys, so that iterating them visits the
        entries in the order the C++ containers do (floating-point sums depend
        on that order);
      - [int] indices are integers in [Z]; [static_cast<int>] of a container
        size wraps around at 32 bits; [int] counters count in [Z]: they are
        bounded by the size of the container they count in, and their
        overflow is undefined in C++;
      - an access that C++ leaves undefined ([operator[]] of a vector out of
        range) or that throws ([map::at] of a missing key) makes the model
        return [None]. *)

From Stdlib Require Import ZArith List String Ascii Bool Lia.
From Stdlib Require Import Permutation Sorted RelationClasses.
From Stdlib Require Import OrdersEx DecimalString DecimalZ DecimalPos Floats.
Import ListNotations.

Local Open Scope Z_scope.

(* ================================================================== *)
(** * Ordered containers keyed by strings *)
(* ================================================================== *)

Module StdMap.

(** [std::less<std::string>]: the lexicographic order on characters. *)
Definition key_compare : string -> string -> comparison := String_as_OT.compare.
Definition key_lt (a b : string) : Prop := key_compare a b = Lt.

Section WithValues.
Context {V : Type}.

(** The entries of a [std::map<std::string, V>], in iteration order. *)
Definition t : Type := list (string * V).

Definition empty : t := [].
Definition keys (m : t) : list string := map fst m.
Definition size (m : t) : nat := List.length m.

(** [m.find(k)]: the value stored under [k], if any (on strictly
    increasing keys, the entry the search of the tree arrives at). *)
Fixpoint find (k : string) (m : t) : option V :=
  match m with
  | [] => None
  | (k', v) :: m' => if String.eqb k k' then Some v else find k m'
  end.

(** [m[k] = v]: replaces the value under [k], or adds the entry at its
    place in the key order. *)
Fixpoint insert (k : string) (v : V) (m : t) : t :=
  match m with
  | [] => [(k, v)]
  | (k', v') :: m' =>
      match key_compare k k' with
      | Lt => (k, v) :: (k', v') :: m'
      | Eq => (k, v) :: m'
      | Gt => (k', v') :: insert k v m'
      end
  end.

(** The representation invariant of [std::map]: keys strictly increasing. *)
Definition wf (m : t) : Prop := StronglySorted key_lt (keys m).

End WithValues.

Arguments t V : clear implicits.

(** [std::set<std::string>]: its elements, in iteration order. *)
Fixpoint set_insert (k : string) (s : list string) : list string :=
  match s with
  | [] => [k]
  | k' :: s' =>
      match key_compare k k' with
      | Lt => k :: k' :: s'
      | Eq => k' :: s'
      | Gt => k' :: set_insert k s'
      end
  end.

End StdMap.


(* ================================================================== *)
(** * Numbers, loops and failure *)
(* ================================================================== *)

(** [static_cast<double>(n)] of an integer count ([int] or [size_t] below
    [2^63]), rounded to the nearest double. *)
Definition to_double (n : Z) : float :=
  if n <? 0 then PrimFloat.opp (PrimFloat.of_uint63 (Uint63.of_Z (- n)))
  else PrimFloat.of_uint63 (Uint63.of_Z n).

Definition INT_MAX : Z := 2147483647.

(** [static_cast<int>(n)] of a container size: the low 32 bits, signed. *)
Definition static_cast_int (n : Z) : Z := (n + 2 ^ 31) mod 2 ^ 32 - 2 ^ 31.

(** [std::to_string(i)] of an [int]. *)
Definition to_string (i : Z) : string := NilZero.string_of_int (Z.to_int i).

(** Sequencing of steps that may fail. *)
Definition bind {A B : Type} (x : option A) (f : A -> option B) : option B :=
  match x with
  | Some a => f a
  | None => None
  end.

Notation "x <- e1 ;; e2" := (bind e1 (fun x => e2))
  (at level 61, e1 at next level, right associativity).

(** [for (const auto& x : l) body], threading the state [s]. *)
Fixpoint for_each {A S : Type} (l : list A) (body : A -> S -> option S) (s : S)
  : option S :=
  match l with
  | [] => Some s
  | x :: l' => s' <- body x s;; for_each l' body s'
  end.

(** [for (int k = lo; k < hi; k++) body]; [n] is the number of rounds left.
    [k + 1] does not overflow: [k < hi], and [hi] is an [int]. *)
Fixpoint for_rounds {S : Type} (n : nat) (k : Z) (body : Z -> S -> option S)
  (s : S) : option S :=
  match n with
  | O => Some s
  | Datatypes.S n' => s' <- body k s;; for_rounds n' (k + 1) body s'
  end.

Definition for_int {S : Type} (lo hi : Z) (body : Z -> S -> option S) (s : S)
  : option S :=
  for_rounds (Z.to_nat (hi - lo)) lo body s.

(** Modelled from the spec: [std::log10], the base-10 logarithm of the C
    library, which the IDF formula [log10(totalDocs / docCount)] calls and
    which is not part of the repository.  The argument is split as [m * 2^e]
    with [m] close to 1, and [ln m] is summed from the series of
    [2 * atanh ((m - 1) / (m + 1))]; the result is exact at 1 ([+0], as the
    C standard requires) and an approximation to a few units in the last
    place elsewhere.
    The development is parametric in the logarithm; this one runs the
    examples. *)
Module Log10.

Definition ln2 : float := 0x1.62e42fefa39efp-1%float.
Definition ln10 : float := 0x1.26bb1bbb55516p+1%float.
Definition sqrt_half : float := 0x1.6a09e667f3bcdp-1%float.

(** [1/k + s2/(k+2) + s2^2/(k+4) + ...], [n] terms. *)
Fixpoint odd_series (n : nat) (k : Z) (s2 : float) : float :=
  match n with
  | O => 0%float
  | S n' => (1 / to_double k + s2 * odd_series n' (k + 2) s2)%float
  end.

Definition ln_near_one (m : float) : float :=
  let s := ((m - 1) / (m + 1))%float in
  (2 * (s * odd_series 14 1 (s * s)))%float.

Definition log10 (x : float) : float :=
  if PrimFloat.is_nan x || PrimFloat.ltb x 0 then PrimFloat.nan
  else if PrimFloat.eqb x 0 then PrimFloat.neg_infinity
  else if PrimFloat.is_infinity x then PrimFloat.infinity
  else
    let '(m, e) := FloatOps.Z.frexp x in
    let '(m, e) := if PrimFloat.ltb m sqrt_half
                   then ((2 * m)%float, e - 1) else (m, e) in
    ((to_double e * ln2 + ln_near_one m) / ln10)%float.

End Log10.

(* ================================================================== *)
(** * FeatureExtractor.cpp *)
(* ================================================================== *)

Module FeatureExtractor.
Import StdMap.

Record t : Type := mk {
  documents : list (list string);
  vocabulary : list string;
  tfidfVectors : list (StdMap.t float)
}.

(** [buildVocabulary]: every word of every document goes into a
    [std::set]; the vocabulary is the set's elements in order. *)
Definition buildVocabulary (docs : list (list string)) : list string :=
  fold_left
    (fun vocabSet doc =>
       fold_left (fun vocabSet word => set_insert word vocabSet) doc vocabSet)
    docs [].

(** The constructor stores the documents and builds the vocabulary. *)
Definition make (docs : list (list string)) : t :=
  {| documents := docs;
     vocabulary := buildVocabulary docs;
     tfidfVectors := [] |}.

(** [termCount[term]++]: a missing entry starts at 0. *)
Definition increment (term : string) (termCount : StdMap.t Z) : StdMap.t Z :=
  let old := match find term termCount with Some c => c | None => 0 end in
  insert term (old + 1) termCount.

Definition countTerms (document : list string) : StdMap.t Z :=
  fold_left (fun termCount term => increment term termCount) document empty.

Definition computeTF (document : list string) : StdMap.t float :=
  match document with
  | [] => empty
  | _ =>
      let termCount := countTerms document in
      let totalTerms := to_double (Z.of_nat (List.length document)) in
      fold_left
        (fun tf '(term, count) =>
           insert term (to_double count / totalTerms)%float tf)
        termCount empty
  end.

(** The number of documents that contain [term]: the inner loop of
    [computeIDF] with [std::find]. *)
Definition docCount (docs : list (list string)) (term : string) : Z :=
  fold_left
    (fun count doc =>
       if existsb (String.eqb term) doc then count + 1 else count)
    docs 0.

Section WithLog10.

(** [std::log10]. *)
Variable log10 : float -> float.

Definition computeIDF (fe : t) : StdMap.t float :=
  match documents fe with
  | [] => empty
  | _ =>
      let totalDocs := to_double (Z.of_nat (List.length (documents fe))) in
      fold_left
        (fun idf term =>
           let count := docCount (documents fe) term in
           if 0 <? count
           then insert term (log10 (totalDocs / to_double count)%float) idf
           else insert term 0%float idf)
        (vocabulary fe) empty
  end.

(** The TF-IDF vector of one document: the inner loop of [computeTFIDF].
    [idf.at(term)] throws when the term has no IDF entry. *)
Definition tfidfOf (vocab : list string) (idf : StdMap.t float)
  (doc : list string) : option (StdMap.t float) :=
  let tf := computeTF doc in
  for_each vocab
    (fun term tfidf =>
       let tfValue := match find term tf with
                      | Some x => x
                      | None => 0%float
                      end in
       idfValue <- find term idf;;
       Some (insert term (tfValue * idfValue)%float tfidf))
    empty.

Definition computeTFIDF (fe : t) : option t :=
  let cleared := mk (documents fe) (vocabulary fe) [] in
  match documents fe with
  | [] => Some cleared
  | _ =>
      let idf := computeIDF fe in
      vectors <- for_each (documents fe)
                   (fun doc vectors =>
                      tfidf <- tfidfOf (vocabulary fe) idf doc;;
                      Some (vectors ++ [tfidf]))
                   [];;
      Some (mk (documents fe) (vocabulary fe) vectors)
  end.

End WithLog10.

Definition getAllTFIDFVectors (fe : t) : list (StdMap.t float) :=
  tfidfVectors fe.

Definition getVocabulary (fe : t) : list string := vocabulary fe.

(** [None] stands for a vector read out of range. *)
Definition getTFIDFVector (fe : t) (docIndex : Z) : option (StdMap.t float) :=
  if (docIndex >=? 0)
     && (docIndex <? static_cast_int (Z.of_nat (List.length (tfidfVectors fe))))
  then nth_error (tfidfVectors fe) (Z.to_nat docIndex)
  else Some empty.

End FeatureExtractor.

(* ================================================================== *)
(** * SimilarityChecker.cpp *)
(* ================================================================== *)

Module SimilarityChecker.
Import StdMap.

Record t : Type := mk {
  tfidfVectors : list (StdMap.t float);
  documentNames : list string
}.

Definition dotProduct (vec1 vec2 : StdMap.t float) : float :=
  let smaller := if (size vec1 <? size vec2)%nat then vec1 else vec2 in
  let larger := if (size vec1 <? size vec2)%nat then vec2 else vec1 in
  fold_left
    (fun result '(term, value1) =>
       match find term larger with
       | Some value2 => (result + value1 * value2)%float
       | None => result
       end)
    smaller 0%float.

Definition magnitude (vec : StdMap.t float) : float :=
  PrimFloat.sqrt
    (fold_left (fun sum '(_, value) => (sum + value * value)%float)
       vec 0%float).

(** [None] stands for a vector read out of range, which the index check
    is there to exclude. *)
Definition cosineSimilarity (sc : t) (doc1Index doc2Index : Z) : option float :=
  let n := static_cast_int (Z.of_nat (List.length (tfidfVectors sc))) in
  if (doc1Index <? 0) || (doc1Index >=? n)
     || (doc2Index <? 0) || (doc2Index >=? n)
  then Some 0%float
  else if doc1Index =? doc2Index then Some 1%float
  else
    vec1 <- nth_error (tfidfVectors sc) (Z.to_nat doc1Index);;
    vec2 <- nth_error (tfidfVectors sc) (Z.to_nat doc2Index);;
    let dot := dotProduct vec1 vec2 in
    let mag1 := magnitude vec1 in
    let mag2 := magnitude vec2 in
    if PrimFloat.eqb mag1 0 || PrimFloat.eqb mag2 0 then Some 0%float
    else Some (dot / (mag1 * mag2))%float.

(** The display name of document [i], or the placeholder. *)
Definition nameOf (sc : t) (i : Z) : option string :=
  if i <? static_cast_int (Z.of_nat (List.length (documentNames sc)))
  then nth_error (documentNames sc) (Z.to_nat i)
  else Some ("Document" ++ to_string i)%string.

Definition compareAll (sc : t) : option (list (string * string * float)) :=
  let numDocs := static_cast_int (Z.of_nat (List.length (tfidfVectors sc))) in
  for_int 0 numDocs
    (fun i results =>
       for_int (i + 1) numDocs
         (fun j results =>
            similarity <- cosineSimilarity sc i j;;
            name1 <- nameOf sc i;;
            name2 <- nameOf sc j;;
            Some (results ++ [(name1, name2, similarity)]))
         results)
    [].

End SimilarityChecker.

(* ================================================================== *)
(** * ReportWriter.cpp *)
(* ================================================================== *)

Module ReportWriter.

Record t : Type := mk {
  outputPath : string;
  threshold : float
}.

Definition setThreshold (thresh : float) (w : t) : t :=
  mk (outputPath w) thresh.

(** What a call of [writeCSV] leaves behind: the content of the file at
    [outputPath] when it was written, and the text sent to the console. *)
Record effects : Type := mkEffects {
  file : option string;
  cout : string;
  cerr : string
}.

Definition newline : string := String "010"%char EmptyString.
Definition quote : string := String "034"%char EmptyString.

Definition header : string :=
  ("Student Pair,Similarity Percentage,Plagiarized" ++ newline)%string.

Section WithStream.

(** [file << x] for a [double] under [std::fixed] and
    [std::setprecision(p)]: the digits the stream library prints. *)
Variable put_fixed : nat -> float -> string.

(** One round of the loop over the results: the text of one row. *)
Definition row (w : t) (result : string * string * float) : string :=
  let '(student1, student2, similarity) := result in
  let pair := (student1 ++ " vs " ++ student2)%string in
  let percentage := (similarity * 100)%float in
  let plagiarized :=
    if PrimFloat.ltb (threshold w) similarity then "Yes"%string else "No"%string in
  (quote ++ pair ++ quote ++ "," ++ put_fixed 2 percentage ++ "%,"
     ++ plagiarized ++ newline)%string.

(** [is_open] tells whether the output file could be opened. *)
Definition writeCSV (w : t) (is_open : bool)
  (results : list (string * string * float)) : effects :=
  if negb is_open
  then mkEffects None ""
         ("Error: Cannot open output file: " ++ outputPath w ++ newline)%string
  else
    let content :=
      fold_left (fun content result => (content ++ row w result)%string)
        results header in
    mkEffects (Some content)
      ("Report written to: " ++ outputPath w ++ newline)%string "".

End WithStream.

End ReportWriter.

(** Modelled from the spec: the text of a [double] written to a stream
    under [std::fixed] and [std::setprecision(p)] (the report's "percentage
    with exactly 2 decimal places"), which the stream library produces and
    the repository does not contain.  The value is rounded to the nearest
    multiple of [10^-p], ties to even, and printed with [p] digits after the
    point.  The report is parametric in the formatter; this one runs the
    examples. *)
Module FixedFormat.

(** The integer nearest to [n / d], ties to even, for [0 <= n] and [0 < d]. *)
Definition round_div (n d : Z) : Z :=
  let q := n / d in
  match (2 * (n mod d) ?= d) with
  | Lt => q
  | Gt => q + 1
  | Eq => if Z.even q then q else q + 1
  end.

(** [m * 2^e * 10^p], rounded to an integer. *)
Definition scaled (p : nat) (m : positive) (e : Z) : Z :=
  if 0 <=? e then Zpos m * 2 ^ e * 10 ^ Z.of_nat p
  else round_div (Zpos m * 10 ^ Z.of_nat p) (2 ^ (- e)).

Definition digits (n : Z) : string := NilZero.string_of_int (Z.to_int n).

Fixpoint zeros (n : nat) : string :=
  match n with
  | O => EmptyString
  | S n' => String "0"%char (zeros n')
  end.

Definition fraction (p : nat) (n : Z) : string :=
  match p with
  | O => EmptyString
  | _ => ("." ++ zeros (p - String.length (digits n)) ++ digits n)%string
  end.

Definition sign (s : bool) : string := if s then "-"%string else EmptyString.

Definition put_fixed (p : nat) (x : float) : string :=
  match Prim2SF x with
  | S754_nan => "nan"%string
  | S754_infinity s => (sign s ++ "inf")%string
  | S754_zero s => (sign s ++ "0" ++ fraction p 0)%string
  | S754_finite s m e =>
      let q := scaled p m e in
      (sign s ++ digits (q / 10 ^ Z.of_nat p)
         ++ fraction p (q mod 10 ^ Z.of_nat p))%string
  end.

End FixedFormat.

(* ================================================================== *)
(** * Characters and strings of the C and C++ libraries *)
(* ================================================================== *)

(** The character functions of [<cctype>] in the "C" locale, which is the
    one in effect (the program never calls [setlocale]): bytes outside
    ASCII are no letters, digits or spaces, and [tolower] leaves them as
    they are. *)
Module CType.

Definition isupper (c : ascii) : bool :=
  (65 <=? nat_of_ascii c)%nat && (nat_of_ascii c <=? 90)%nat.

Definition islower (c : ascii) : bool :=
  (97 <=? nat_of_ascii c)%nat && (nat_of_ascii c <=? 122)%nat.

Definition isdigit (c : ascii) : bool :=
  (48 <=? nat_of_ascii c)%nat && (nat_of_ascii c <=? 57)%nat.

Definition isalnum (c : ascii) : bool := isdigit c || isupper c || islower c.

(** Space, tab, line feed, vertical tab, form feed, carriage return. *)
Definition isspace (c : ascii) : bool :=
  (nat_of_ascii c =? 32)%nat
  || ((9 <=? nat_of_ascii c)%nat && (nat_of_ascii c <=? 13)%nat).

Definition tolower (c : ascii) : ascii :=
  if isupper c then ascii_of_nat (nat_of_ascii c + 32) else c.

End CType.

(** [std::transform(s.begin(), s.end(), s.begin(), f)]. *)
Fixpoint transform (f : ascii -> ascii) (s : string) : string :=
  match s with
  | EmptyString => EmptyString
  | String c s' => String (f c) (transform f s')
  end.

(** Members of [std::string]; positions and sizes are [size_t], 64 bits. *)
Module StdString.

Definition npos : Z := 2 ^ 64 - 1.

Definition size (s : string) : Z := Z.of_nat (String.length s).

(** Addition of [size_t] values wraps around. *)
Definition size_add (a b : Z) : Z := (a + b) mod 2 ^ 64.

Fixpoint char_in (c : ascii) (chars : string) : bool :=
  match chars with
  | EmptyString => false
  | String c' chars' => Ascii.eqb c c' || char_in c chars'
  end.

(** The scan of [find_last_of]: [pos] is the position of the head of [s],
    [found] the last position seen so far. *)
Fixpoint find_last_of_from (chars s : string) (pos found : Z) : Z :=
  match s with
  | EmptyString => found
  | String c rest =>
      find_last_of_from chars rest (pos + 1)
        (if char_in c chars then pos else found)
  end.

(** [s.find_last_of(chars)]: the last position of [s] that holds one of
    [chars], or [npos]. *)
Definition find_last_of (chars s : string) : Z :=
  find_last_of_from chars s 0 npos.

Fixpoint find_from (c : ascii) (s : string) (pos : Z) : Z :=
  match s with
  | EmptyString => npos
  | String c' rest => if Ascii.eqb c c' then pos else find_from c rest (pos + 1)
  end.

(** [s.find(c)]: the first position of [s] that holds [c], or [npos]. *)
Definition find (c : ascii) (s : string) : Z := find_from c s 0.

Fixpoint drop (n : nat) (s : string) : string :=
  match n, s with
  | O, _ => s
  | S n', String _ rest => drop n' rest
  | S _, EmptyString => EmptyString
  end.

(** [s.substr(pos)]: the text from [pos] on; throws [std::out_of_range]
    ([None]) when [pos] is beyond the size. *)
Definition substr (s : string) (pos : Z) : option string :=
  if pos >? size s then None else Some (drop (Z.to_nat pos) s).

(** [s.back()] of a text that is not empty. *)
Fixpoint back (s : string) : option ascii :=
  match s with
  | EmptyString => None
  | String c EmptyString => Some c
  | String _ rest => back rest
  end.

(** [std::endl], as text. *)
Definition endl : string := String "010"%char EmptyString.

End StdString.

(* ================================================================== *)
(** * TextCleaner.cpp *)
(* ================================================================== *)

Module TextCleaner.

(** [stopWords] is a [std::unordered_set<std::string>], of which the code
    uses [insert] and [find] only: its elements, without repetition. *)
Record t : Type := mk {
  stopWords : list string
}.

Definition contains (set : list string) (word : string) : bool :=
  existsb (String.eqb word) set.

Definition set_insert (word : string) (set : list string) : list string :=
  if contains set word then set else word :: set.

Definition words : list string :=
  [ "a"; "an"; "and"; "are"; "as"; "at"; "be"; "by"; "for"; "from";
    "has"; "he"; "in"; "is"; "it"; "its"; "of"; "on"; "that"; "the";
    "to"; "was"; "will"; "with"; "the"; "this"; "but"; "they"; "have";
    "had"; "what"; "said"; "each"; "which"; "their"; "time"; "if";
    "up"; "out"; "many"; "then"; "them"; "these"; "so"; "some"; "her";
    "would"; "make"; "like"; "into"; "him"; "has"; "two"; "more";
    "very"; "after"; "words"; "long"; "than"; "first"; "been"; "call";
    "who"; "oil"; "sit"; "now"; "find"; "down"; "day"; "did"; "get";
    "come"; "made"; "may"; "part" ]%string.

Definition initializeStopWords (tc : t) : t :=
  mk (fold_left (fun set word => set_insert word set) words (stopWords tc)).

(** The constructor. *)
Definition make : t := initializeStopWords (mk []).

Definition toLower (text : string) : string := transform CType.tolower text.

Definition removePunctuation (text : string) : string :=
  transform
    (fun c => if CType.isalnum c || CType.isspace c then c else " "%char)
    text.

Definition removeStopWords (tc : t) (tokens : list string) : list string :=
  fold_left
    (fun filtered token =>
       if negb (contains (stopWords tc) token)
          && negb (String.eqb token EmptyString)
       then filtered ++ [token]
       else filtered)
    tokens [].

(** The whitespace that [iss >> token] skips before a word. *)
Fixpoint skip_spaces (stream : string) : string :=
  match stream with
  | EmptyString => EmptyString
  | String c rest => if CType.isspace c then skip_spaces rest else stream
  end.

(** The characters up to the next whitespace, and what follows them. *)
Fixpoint read_word (stream : string) : string * string :=
  match stream with
  | EmptyString => (EmptyString, EmptyString)
  | String c rest =>
      if CType.isspace c then (EmptyString, stream)
      else let '(word, rest') := read_word rest in (String c word, rest')
  end.

(** [iss >> token]: the next word and the rest of the stream, or [None]
    when only whitespace is left and the extraction fails. *)
Definition extract (stream : string) : option (string * string) :=
  match skip_spaces stream with
  | EmptyString => None
  | rest => Some (read_word rest)
  end.

(** [while (iss >> token)]; [n] bounds the number of rounds. *)
Fixpoint tokenize_loop (n : nat) (stream : string) (tokens : list string)
  : list string :=
  match n with
  | O => tokens
  | S n' =>
      match extract stream with
      | None => tokens
      | Some (token, rest) =>
          tokenize_loop n' rest
            (if negb (String.eqb token EmptyString) then tokens ++ [token]
             else tokens)
      end
  end.

(** Every extraction takes at least one character, so the length of the
    text bounds the rounds. *)
Definition tokenize (text : string) : list string :=
  tokenize_loop (String.length text) text [].

Definition preprocess (tc : t) (text : string) : list string :=
  let lowerText := toLower text in
  let noPunct := removePunctuation lowerText in
  let tokens := tokenize noPunct in
  removeStopWords tc tokens.

End TextCleaner.

(* ================================================================== *)
(** * FileReader.cpp *)
(* ================================================================== *)

Module FileReader.
Import StdString.

Record t : Type := mk {
  folderPath : string
}.

(** The constructor appends a slash to a path that does not end in a
    slash or backslash. *)
Definition make (path : string) : t :=
  match back path with
  | None => mk path
  | Some c =>
      if negb (Ascii.eqb c "/") && negb (Ascii.eqb c "\")
      then mk (path ++ "/")
      else mk path
  end.

(** [name.substr(name.find_last_of(".") + 1)], lowercased: when the name
    has no dot, [npos + 1] wraps to 0 and this is the whole name. *)
Definition extension (fileName : string) : option string :=
  ext <- substr fileName (size_add (find_last_of "." fileName) 1);;
  Some (transform CType.tolower ext).

Definition supported (ext : string) : bool :=
  String.eqb ext "txt" || String.eqb ext "pdf" || String.eqb ext "docx".

Definition pdf_warning (name : string) : string :=
  ("Warning: PDF reading not implemented. File: " ++ name
     ++ " cannot be read." ++ endl)%string.

Definition docx_warning (name : string) : string :=
  ("Warning: DOCX reading not implemented. File: " ++ name
     ++ " cannot be read." ++ endl)%string.

Definition unsupported_warning (ext : string) : string :=
  ("Warning: Unsupported file type: " ++ ext ++ endl)%string.

Definition no_extension_warning (filePath : string) : string :=
  ("Warning: File has no extension: " ++ filePath ++ endl)%string.

Section WithFiles.

(** [std::ifstream file(path)]: the content of the file when it can be
    opened. *)
Variable open_file : string -> option string.

(** [opendir] and [readdir] (the build for systems other than Windows):
    the entries of a directory in the order they are read, [.] and [..]
    among them, when the directory can be opened. *)
Variable list_dir : string -> option (list string).

Definition getFileNames (r : t) : option (list string) :=
  match list_dir (folderPath r) with
  | None => Some []
  | Some entries =>
      for_each entries
        (fun fileName fileNames =>
           if negb (String.eqb fileName ".") && negb (String.eqb fileName "..")
           then
             ext <- extension fileName;;
             if supported ext then Some (fileNames ++ [fileName])
             else Some fileNames
           else Some fileNames)
        []
  end.

(** The readers return the text read and what they write to [std::cerr]. *)
Definition readTXT (r : t) (filename : string) : string * string :=
  match open_file (folderPath r ++ filename) with
  | None => (EmptyString, EmptyString)
  | Some content => (content, EmptyString)
  end.

Definition readPDF (r : t) (filename : string) : string * string :=
  (EmptyString, pdf_warning filename).

Definition readDOCX (r : t) (filename : string) : string * string :=
  (EmptyString, docx_warning filename).

Definition readFile (r : t) (filename : string) : option (string * string) :=
  ext <- extension filename;;
  if String.eqb ext "txt" then Some (readTXT r filename)
  else if String.eqb ext "pdf" then Some (readPDF r filename)
  else if String.eqb ext "docx" then Some (readDOCX r filename)
  else Some (EmptyString, unsupported_warning ext).

Definition readFileByPath (filePath : string) : option (string * string) :=
  let lastDot := find_last_of "." filePath in
  if lastDot =? npos then Some (EmptyString, no_extension_warning filePath)
  else
    ext <- substr filePath (size_add lastDot 1);;
    let ext := transform CType.tolower ext in
    if String.eqb ext "txt" then
      match open_file filePath with
      | None => Some (EmptyString, EmptyString)
      | Some content => Some (content, EmptyString)
      end
    else if String.eqb ext "pdf" then Some (EmptyString, pdf_warning filePath)
    else if String.eqb ext "docx" then Some (EmptyString, docx_warning filePath)
    else Some (EmptyString, unsupported_warning ext).

End WithFiles.

End FileReader.

(** The pipeline of [main]: vectors from the extractor go to the checker. *)
Definition engine (log10 : float -> float) (docs : list (list string))
  (names : list string) : option SimilarityChecker.t :=
  fe <- FeatureExtractor.computeTFIDF log10 (FeatureExtractor.make docs);;
  Some (SimilarityChecker.mk (FeatureExtractor.getAllTFIDFVectors fe) names).

(* ================================================================== *)
(** * main.cpp *)
(* ================================================================== *)

Module Main.
Import StdString.

(** The variables that the argument processing of [main] sets. *)
Record config : Type := mkConfig {
  outputFile : string;
  threshold : float;
  filePaths : list string;
  documentNames : list string;
  useFileMode : bool
}.

(** What a run leaves behind: the exit code, the text written to the two
    console streams, and the content of the report when it was written. *)
Record result : Type := mkResult {
  exit_code : Z;
  cout : string;
  cerr : string;
  report : option string
}.

(** The default threshold, [0.70]. *)
Definition default_threshold : float := 0x1.6666666666666p-1%float.

Definition defaults : config :=
  mkConfig "plagiarism_report.csv" default_threshold [] [] false.

(** [if (threshold < 0.0 || threshold > 1.0) threshold = 0.70]. *)
Definition validate (x : float) : float :=
  if PrimFloat.ltb x 0 || PrimFloat.ltb 1 x then default_threshold else x.

(** The test of the file mode for an input file: the argument is longer
    than 4 characters and ends in [.txt] or [.pdf], or is longer than 5 and
    ends in [.docx]. *)
Definition is_input_file (arg : string) : option bool :=
  if size arg >? 4 then
    last4 <- substr arg (size arg - 4);;
    if String.eqb last4 ".txt" then Some true
    else if String.eqb last4 ".pdf" then Some true
    else if size arg >? 5 then
      last5 <- substr arg (size arg - 5);;
      Some (String.eqb last5 ".docx")
    else Some false
  else Some false.

(** The name of a file in file mode: what follows the last slash or
    backslash of its path. *)
Definition baseName (path : string) : option string :=
  let lastSlash := find_last_of "/\" path in
  if negb (lastSlash =? npos) then substr path (size_add lastSlash 1)
  else Some path.

Section WithEnvironment.

Variable open_file : string -> option string.
Variable list_dir : string -> option (list string).

(** [std::stod]: the number a text starts with, or [None] when it throws. *)
Variable stod : string -> option float.

Variable log10 : float -> float.
Variable put_fixed : nat -> float -> string.

(** [std::cout << x] for a [double], in the default notation. *)
Variable put_general : float -> string.

(** Whether the report file can be opened for writing. *)
Variable can_open : string -> bool.

(** One round of the loop over the arguments of the file mode. *)
Definition file_mode_arg (arg : string) (cfg : config) : option config :=
  input <- is_input_file arg;;
  if input
  then Some (mkConfig (outputFile cfg) (threshold cfg) (filePaths cfg ++ [arg])
               (documentNames cfg) (useFileMode cfg))
  else if negb (find "." arg =? npos) && (find "/" arg =? npos)
          && (find "\" arg =? npos)
  then Some (mkConfig arg (threshold cfg) (filePaths cfg) (documentNames cfg)
               (useFileMode cfg))
  else
    match stod arg with
    | Some x =>
        Some (mkConfig (outputFile cfg) (validate x) (filePaths cfg)
                (documentNames cfg) (useFileMode cfg))
    | None => Some cfg
    end.

(** The files of a folder: the run ends with code 1 when there is none. *)
Definition from_folder (inputFolder message : string) (cfg : config)
  : option (config + result) :=
  fileNames <- FileReader.getFileNames list_dir (FileReader.make inputFolder);;
  match fileNames with
  | [] => Some (inr (mkResult 1 EmptyString message None))
  | _ =>
      Some (inl (mkConfig (outputFile cfg) (threshold cfg)
                   (filePaths cfg
                    ++ map (fun name => (inputFolder ++ "/" ++ name)%string) fileNames)
                   (documentNames cfg ++ fileNames)
                   (useFileMode cfg)))
  end.

(** The argument processing.  [argv] holds the program name first. *)
Definition parse (argv : list string) : option (config + result) :=
  match argv with
  | _ :: firstArg :: rest =>
      if String.eqb firstArg "-f" || String.eqb firstArg "--files" then
        cfg <- for_each rest file_mode_arg
                 (mkConfig (outputFile defaults) (threshold defaults) [] [] true);;
        Some (inl cfg)
      else
        let cfg :=
          match rest with
          | out :: _ =>
              mkConfig out (threshold defaults) [] [] false
          | [] => defaults
          end in
        cfg <- match rest with
               | _ :: thr :: _ =>
                   x <- stod thr;;
                   Some (mkConfig (outputFile cfg) (validate x) [] [] false)
               | _ => Some cfg
               end;;
        from_folder firstArg
          ("Error: No supported files found." ++ endl)%string cfg
  | _ =>
      from_folder "assignments" ("Error: No supported files." ++ endl)%string
        defaults
  end.

(** In file mode the names are cut from the paths. *)
Definition fill_names (cfg : config) : option config :=
  match useFileMode cfg, documentNames cfg with
  | true, [] =>
      names <- for_each (filePaths cfg)
                 (fun path names => name <- baseName path;; Some (names ++ [name]))
                 [];;
      Some (mkConfig (outputFile cfg) (threshold cfg) (filePaths cfg) names
              (useFileMode cfg))
  | _, _ => Some cfg
  end.

(** Reading and preprocessing: a file without content is passed over.
    The second component collects the warnings of the reader. *)
Definition loadDocuments (cleaner : TextCleaner.t) (paths : list string)
  : option (list (list string) * string) :=
  for_each paths
    (fun path state =>
       let '(processedDocuments, warnings) := state in
       read <- FileReader.readFileByPath open_file path;;
       let '(content, warning) := read in
       if String.eqb content EmptyString
       then Some (processedDocuments, (warnings ++ warning)%string)
       else Some (processedDocuments ++ [TextCleaner.preprocess cleaner content],
                  (warnings ++ warning)%string))
    ([], EmptyString).

Definition banner (cfg : config) : string :=
  ("=== Smart Assignment Plagiarism Checker ===" ++ endl
   ++ "Output file: " ++ outputFile cfg ++ endl
   ++ "Threshold: " ++ put_general (threshold cfg * 100)%float ++ "%" ++ endl)%string.

(** [None] stands for a run ended by an exception that nothing catches. *)
Definition main (argv : list string) : option result :=
  parsed <- parse argv;;
  match parsed with
  | inr early => Some early
  | inl cfg =>
      cfg <- fill_names cfg;;
      match filePaths cfg with
      | [] =>
          Some (mkResult 1 EmptyString ("Error: No files specified." ++ endl)%string
                  None)
      | _ =>
          loaded <- loadDocuments TextCleaner.make (filePaths cfg);;
          let '(processedDocuments, warnings) := loaded in
          match processedDocuments with
          | [] =>
              Some (mkResult 1 (banner cfg)
                      (warnings ++ "Error: No valid data." ++ endl)%string None)
          | _ =>
              extractor <- FeatureExtractor.computeTFIDF log10
                             (FeatureExtractor.make processedDocuments);;
              let tfidfVectors := FeatureExtractor.getAllTFIDFVectors extractor in
              results <- SimilarityChecker.compareAll
                           (SimilarityChecker.mk tfidfVectors (documentNames cfg));;
              let written :=
                ReportWriter.writeCSV put_fixed
                  (ReportWriter.mk (outputFile cfg) (threshold cfg))
                  (can_open (outputFile cfg)) results in
              Some (mkResult 0
                      (banner cfg ++ ReportWriter.cout written)%string
                      (warnings ++ ReportWriter.cerr written)%string
                      (ReportWriter.file written))
          end
      end
  end.

End WithEnvironment.

End Main.

(* ================================================================== *)
(** * Vocabulary of the statements *)
(* ================================================================== *)

(** The indices a counting loop visits. *)
Fixpoint zrange (n : nat) (k : Z) : list Z :=
  match n with
  | O => []
  | S n' => k :: zrange n' (k + 1)
  end.

(** The number of stored vectors. *)
Definition numVectors (sc : SimilarityChecker.t) : Z :=
  Z.of_nat (List.length (SimilarityChecker.tfidfVectors sc)).

(** The index pairs [(i, j)] with [0 <= i < j < n], all pairs of the
    smaller [i] first and, for one [i], in increasing [j]. *)
Definition index_pairs (n : Z) : list (Z * Z) :=
  flat_map
    (fun i => map (pair i) (zrange (Z.to_nat (n - (i + 1))) (i + 1)))
    (zrange (Z.to_nat n) 0).

(** The order of the nested iteration: by [i], then by [j]. *)
Definition pair_lt (p q : Z * Z) : Prop :=
  fst p < fst q \/ (fst p = fst q /\ snd p < snd q).

(** [r] is the result of comparing the documents of the index pair [p]:
    their two display names and their similarity. *)
Definition result_of (sc : SimilarityChecker.t) (p : Z * Z)
  (r : string * string * float) : Prop :=
  SimilarityChecker.nameOf sc (fst p) = Some (fst (fst r)) /\
  SimilarityChecker.nameOf sc (snd p) = Some (snd (fst r)) /\
  SimilarityChecker.cosineSimilarity sc (fst p) (snd p) = Some (snd r).

(** The result [compareAll] stores for the pair [(i, j)]. *)
Definition entry (sc : SimilarityChecker.t) (p : Z * Z)
  : string * string * float :=
  (match SimilarityChecker.nameOf sc (fst p) with
   | Some s => s
   | None => EmptyString
   end,
   match SimilarityChecker.nameOf sc (snd p) with
   | Some s => s
   | None => EmptyString
   end,
   match SimilarityChecker.cosineSimilarity sc (fst p) (snd p) with
   | Some x => x
   | None => 0%float
   end).

(** A double that is [+0] or [-0]. *)
Definition is_zero (x : float) : Prop := exists s, Prim2SF x = S754_zero s.

(** The loop of [dotProduct]: the entries of [a] are visited in order and
    [b] is probed for each key. *)
Definition dot_loop (a b : StdMap.t float) (result : float) : float :=
  fold_left
    (fun result '(term, value1) =>
       match StdMap.find term b with
       | Some value2 => (result + value1 * value2)%float
       | None => result
       end)
    a result.

(** The lines of a text, one after the other. *)
Definition lines (l : list string) : string :=
  fold_right String.append EmptyString l.

(** The number of documents in which [term] occurs at least once. *)
Definition documentsWith (term : string) (docs : list (list string)) : nat :=
  List.length
    (filter (fun doc => if in_dec string_dec term doc then true else false) docs).

(** The IDF of a term in a corpus, as [computeIDF] stores it. *)
Definition idfValue (log10 : float -> float) (docs : list (list string))
  (term : string) : float :=
  let count := FeatureExtractor.docCount docs term in
  if 0 <? count
  then log10 (to_double (Z.of_nat (List.length docs)) / to_double count)%float
  else 0%float.

(** The TF of a term in a document, as [computeTFIDF] reads it: 0.0 when
    the TF map has no entry. *)
Definition tfValue (doc : list string) (term : string) : float :=
  match StdMap.find term (FeatureExtractor.computeTF doc) with
  | Some x => x
  | None => 0%float
  end.

(** The TF-IDF vector of a document: one entry per vocabulary term. *)
Definition weights (log10 : float -> float) (docs : list (list string))
  (vocab : list string) (doc : list string) : StdMap.t float :=
  map (fun term => (term, (tfValue doc term * idfValue log10 docs term)%float))
    vocab.

(** Whether every IDF of the corpus is a number (neither NaN nor infinite),
    as the logarithm of a ratio between 1 and the corpus size is. *)
Definition idf_finite (log10 : float -> float) (docs : list (list string)) : bool :=
  forallb (fun term => PrimFloat.is_finite (idfValue log10 docs term))
    (FeatureExtractor.buildVocabulary docs).

(** The count stored for [t], 0 when there is none. *)
Definition count_of (m : StdMap.t Z) (t : string) : Z :=
  match StdMap.find t m with
  | Some c => c
  | None => 0
  end.

(** The name [compareAll] gives document [i]: the stored one, or the
    placeholder. *)
Definition label (names : list string) (i : Z) : string :=
  match nth_error names (Z.to_nat i) with
  | Some name => name
  | None => ("Document" ++ to_string i)%string
  end.

(** A double that is not below zero: a zero, a positive number, [+inf],
    or NaN (which compares below nothing). *)
Definition not_negative (x : float) : Prop := PrimFloat.ltb x 0 = false.

(** The same on the specification side of a double. *)
Definition sf_not_negative (x : spec_float) : Prop :=
  match x with
  | S754_nan | S754_zero _ => True
  | S754_infinity s | S754_finite s _ _ => s = false
  end.

(** A double whose sign bit is clear: [+0], a positive number, [+inf]; NaN
    is let through. *)
Definition sign_clear (x : float) : Prop :=
  match Prim2SF x with
  | S754_nan => True
  | S754_zero s | S754_infinity s | S754_finite s _ _ => s = false
  end.

(** The number of occurrences of a character in a text. *)
Fixpoint count_char (c : ascii) (s : string) : nat :=
  match s with
  | EmptyString => O
  | String c' s' => (if Ascii.eqb c c' then 1 else 0) + count_char c s'
  end.

(** Whether every character of a text passes a test. *)
Fixpoint all_chars (P : ascii -> bool) (s : string) : bool :=
  match s with
  | EmptyString => true
  | String c s' => P c && all_chars P s'
  end.

(** A lowercase letter or a digit. *)
Definition lower_alnum (c : ascii) : bool := CType.isdigit c || CType.islower c.

(** The word being read, when the text ends or a space follows. *)
Definition flush (cur : string) : list string :=
  match cur with
  | EmptyString => []
  | _ => [cur]
  end.

(** The words of a text: its maximal runs of characters that are no
    whitespace, in order.  [cur] is the part of a word already read. *)
Fixpoint split_words (text cur : string) : list string :=
  match text with
  | EmptyString => flush cur
  | String c rest =>
      if CType.isspace c then flush cur ++ split_words rest EmptyString
      else split_words rest (cur ++ String c EmptyString)
  end.

(** The tokens written one after the other, a space after each. *)
Definition spaced (tokens : list string) : string :=
  fold_right (fun token text => (token ++ " " ++ text)%string) EmptyString tokens.

(** The test of [removeStopWords]. *)
Definition kept (tc : TextCleaner.t) (token : string) : bool :=
  negb (TextCleaner.contains (TextCleaner.stopWords tc) token)
  && negb (String.eqb token EmptyString).

(** What [removePunctuation] writes for a character. *)
Definition keep_or_space (c : ascii) : ascii :=
  if CType.isalnum c || CType.isspace c then c else " "%char.

(** The last position of a text that holds one of [chars], if any. *)
Fixpoint last_index (chars s : string) : option nat :=
  match s with
  | EmptyString => None
  | String c rest =>
      match last_index chars rest with
      | Some k => Some (S k)
      | None => if StdString.char_in c chars then Some O else None
      end
  end.

(** The test of [getFileNames] for a directory entry. *)
Definition listed (fileName : string) : bool :=
  negb (String.eqb fileName ".") && negb (String.eqb fileName "..")
  && match FileReader.extension fileName with
     | Some ext => FileReader.supported ext
     | None => false
     end.

(** A threshold the argument processing accepts: not below 0 and not
    above 1, so a number of the interval or NaN. *)
Definition accepted (x : float) : Prop :=
  PrimFloat.ltb x 0 = false /\ PrimFloat.ltb 1 x = false.

(** What [readFileByPath] returns and writes for a path. *)
Definition read_of (open_file : string -> option string) (path : string)
  : string * string :=
  match FileReader.readFileByPath open_file path with
  | Some read => read
  | None => (EmptyString, EmptyString)
  end.

Definition has_content (content : string) : bool :=
  negb (String.eqb content EmptyString).

(** An argument of the file mode with a dot and without slash or
    backslash. *)
Definition dotted (arg : string) : Prop :=
  count_char "." arg <> O /\ count_char "/" arg = O /\ count_char "\" arg = O.

(** A character that is neither a line break nor a quote. *)
Definition plain (c : ascii) : bool :=
  negb (Ascii.eqb c "010") && negb (Ascii.eqb c "034").

(** ** Inputs of the examples *)

(** A corpus of two documents with the same single token. *)
Definition twins : list (list string) := [["a"]; ["a"]]%string.

(** Three terms of weight 1, stored for two documents. *)
Definition ones : StdMap.t float :=
  [("a", 1); ("b", 1); ("c", 1)]%string%float.

Definition two_ones : SimilarityChecker.t :=
  SimilarityChecker.mk [ones; ones] ["A"; "B"]%string.

(** The corpus of the specification's scenario, after stopword removal. *)
Definition scenario : list (list string) :=
  [ ["data"; "structures"; "useful"];
    ["data"; "structures"; "useful"];
    ["object"; "oriented"; "programming"] ]%string.


(** A corpus whose first document has no tokens. *)
Definition with_empty : list (list string) :=
  [ []; ["data"; "structures"]; ["programming"] ]%string.

(** Two copies of a document of six words among three other documents. *)
Definition copies : list (list string) :=
  [ ["a"; "b"; "c"; "d"; "e"; "f"];
    ["a"; "b"; "c"; "d"; "e"; "f"];
    ["z0"]; ["z1"]; ["z2"] ]%string.

(** One stored vector, without entries. *)
Definition one_blank : SimilarityChecker.t :=
  SimilarityChecker.mk [[]] ["A"]%string.

Definition three_results : list (string * string * float) :=
  [ ("A", "B", 0x1.bf141205bc01ap-1);
    ("A", "C", 0x1.6666666666666p-1);
    ("B", "C", 0x1.0000000000001p+0) ]%string%float.

Definition writer : ReportWriter.t :=
  ReportWriter.mk "report.csv" 0x1.6666666666666p-1%float.

(** Three stored vectors, the last without entries, and one name. *)
Definition three_vectors : SimilarityChecker.t :=
  SimilarityChecker.mk [ones; ones; []] ["A"]%string.

(** Two stored vectors: one of zeros of both signs, one of ones. *)
Definition zeros_and_ones : SimilarityChecker.t :=
  SimilarityChecker.mk [[("a", 0); ("b", -0)]%string%float; ones] [].

(** Two vectors without a common key; one weight is NaN. *)
Definition left_vector : StdMap.t float := [("a", 1); ("c", nan)]%string%float.
Definition right_vector : StdMap.t float := [("b", 1)]%string%float.

(** A folder [docs] with four text files, the first of them empty, a PDF
    file, and a file without extension. *)
Definition disk (path : string) : option string :=
  if String.eqb path "docs/a.txt" then Some EmptyString
  else if String.eqb path "docs/b.txt" then Some "Data structures are useful."%string
  else if String.eqb path "docs/c.TXT" then Some "data, structures: useful"%string
  else if String.eqb path "docs/d.txt" then Some "object oriented programming"%string
  else if String.eqb path "docs/notes" then Some "notes"%string
  else None.

Definition folder (path : string) : option (list string) :=
  if String.eqb path "docs/"
  then Some ["."; ".."; "a.txt"; "b.txt"; "c.TXT"; "d.txt"; "e.pdf"; "notes"]%string
  else None.

(** The numbers that the examples pass as arguments. *)
Definition read_number (text : string) : option float :=
  if String.eqb text "0.5" then Some 0x1p-1%float
  else if String.eqb text "1.5" then Some 0x1.8p+0%float
  else None.

(** The arguments of a run over the folder [docs]. *)
Definition folder_run : list string := ["prog"; "docs"; "out.csv"; "0.5"]%string.

(** The variables of [main] after the arguments of that run were read. *)
Definition folder_config : Main.config :=
  Main.mkConfig "out.csv" 0x1p-1%float
    ["docs/a.txt"; "docs/b.txt"; "docs/c.TXT"; "docs/d.txt"; "docs/e.pdf"]%string
    ["a.txt"; "b.txt"; "c.TXT"; "d.txt"; "e.pdf"]%string false.

(** Arguments of the file mode, each with a dot and without a slash. *)
Definition dotted_run : list string := ["b.txt"; "0.5"; "out.csv"]%string.


(* ================================================================== *)
(** * Facts about the ordered containers *)
(* ================================================================== *)

Module StdMapFacts.
Import StdMap.

Lemma key_lt_irrefl (a : string) : ~ key_lt a a.
Proof. exact (StrictOrder_Irreflexive (R := String_as_OT.lt) a). Qed.

Lemma key_lt_trans (a b c : string) : key_lt a b -> key_lt b c -> key_lt a c.
Proof. exact (StrictOrder_Transitive (R := String_as_OT.lt) a b c). Qed.

Lemma key_compare_spec (a b : string) :
  CompareSpec (a = b) (key_lt a b) (key_lt b a) (key_compare a b).
Proof. exact (String_as_OT.compare_spec a b). Qed.

Lemma key_lt_neq (a b : string) : key_lt a b -> a <> b.
Proof. intros H ->. now apply key_lt_irrefl in H. Qed.

Lemma key_lt_asym (a b : string) : key_lt a b -> ~ key_lt b a.
Proof. intros H1 H2. exact (key_lt_irrefl a (key_lt_trans _ _ _ H1 H2)). Qed.

(** Case analysis on a comparison, with the order facts in the context. *)
Ltac cmp a b :=
  let H := fresh "Hcmp" in
  destruct (key_compare_spec a b) as [H|H|H]; [try subst | | ].

Section WithValues.
Context {V : Type}.
Implicit Types (m : t V) (k : string) (v : V).

Lemma find_insert_same k v m : find k (insert k v m) = Some v.
Proof.
  induction m as [|[k' v'] m IH]; simpl.
  - now rewrite String.eqb_refl.
  - cmp k k'; simpl.
    + now rewrite String.eqb_refl.
    + now rewrite String.eqb_refl.
    + apply key_lt_neq in Hcmp.
      destruct (String.eqb_spec k k'); [congruence | exact IH].
Qed.

Lemma find_insert_other k k' v m :
  k <> k' -> find k' (insert k v m) = find k' m.
Proof.
  intros Hne. induction m as [|[k1 v1] m IH]; simpl.
  - destruct (String.eqb_spec k' k); congruence.
  - cmp k k1; simpl.
    + destruct (String.eqb_spec k' k1); congruence.
    + destruct (String.eqb_spec k' k); congruence.
    + now rewrite IH.
Qed.

Lemma find_None_iff k m : find k m = None <-> ~ In k (keys m).
Proof.
  induction m as [|[k' v'] m IH]; simpl; [tauto|].
  destruct (String.eqb_spec k k') as [->|Hne].
  - split; [discriminate | intros H; exfalso; auto].
  - rewrite IH. split; [intros H [H'|H']; congruence | tauto].
Qed.

Lemma keys_insert_In k k' v m :
  In k' (keys (insert k v m)) <-> k' = k \/ In k' (keys m).
Proof.
  induction m as [|[k1 v1] m IH]; simpl.
  - intuition.
  - cmp k k1; simpl; try rewrite IH; intuition.
Qed.

Lemma wf_nil : wf (@empty V).
Proof. constructor. Qed.

Lemma wf_tail k v m : wf ((k, v) :: m) -> wf m.
Proof. unfold wf; simpl. now inversion 1. Qed.

Lemma wf_head k v m :
  wf ((k, v) :: m) -> Forall (key_lt k) (keys m).
Proof. unfold wf; simpl. now inversion 1. Qed.

Lemma wf_insert k v m : wf m -> wf (insert k v m).
Proof.
  unfold wf. induction m as [|[k' v'] m IH]; simpl; intros Hwf.
  - repeat constructor.
  - inversion Hwf as [|? ? Hs Hall]; subst.
    cmp k k'; simpl.
    + now constructor.
    + constructor; [exact Hwf|]. constructor; [exact Hcmp|].
      eapply Forall_impl; [|exact Hall]. intros a. now apply key_lt_trans.
    + constructor; [now apply IH|].
      rewrite Forall_forall. intros a Ha.
      apply keys_insert_In in Ha as [->|Ha]; [exact Hcmp|].
      rewrite Forall_forall in Hall. now apply Hall.
Qed.

(** Adding a key above all the others appends the entry. *)
Lemma insert_above k v m :
  Forall (fun k' => key_lt k' k) (keys m) -> insert k v m = m ++ [(k, v)].
Proof.
  induction m as [|[k' v'] m IH]; simpl; intros Hall; [reflexivity|].
  inversion Hall as [|? ? Hlt Hall']; subst.
  cmp k k'.
  - now apply key_lt_irrefl in Hlt.
  - now apply key_lt_asym in Hlt.
  - now rewrite IH.
Qed.

Lemma find_below k k' v m :
  key_lt k k' -> wf ((k', v) :: m) -> find k ((k', v) :: m) = None.
Proof.
  intros Hlt Hwf. apply find_None_iff. simpl. intros [<-|Hin].
  - now apply key_lt_irrefl in Hlt.
  - apply wf_head in Hwf. rewrite Forall_forall in Hwf.
    exact (key_lt_asym _ _ Hlt (Hwf _ Hin)).
Qed.


End WithValues.

(** ** Sets *)

Lemma set_insert_In k k' s : In k' (set_insert k s) <-> k' = k \/ In k' s.
Proof.
  induction s as [|k1 s IH]; simpl.
  - intuition.
  - cmp k k1; simpl; try rewrite IH; intuition.
Qed.

Lemma set_insert_sorted k s :
  StronglySorted key_lt s -> StronglySorted key_lt (set_insert k s).
Proof.
  induction s as [|k' s IH]; simpl; intros Hs.
  - repeat constructor.
  - inversion Hs as [|? ? Hs' Hall]; subst.
    cmp k k'; simpl.
    + exact Hs.
    + constructor; [exact Hs|]. constructor; [exact Hcmp|].
      eapply Forall_impl; [|exact Hall]. intros a. now apply key_lt_trans.
    + constructor; [now apply IH|].
      rewrite Forall_forall. intros a Ha.
      apply set_insert_In in Ha as [->|Ha]; [exact Hcmp|].
      rewrite Forall_forall in Hall. now apply Hall.
Qed.

End StdMapFacts.

(* ================================================================== *)
(** * Lists and loops that cannot fail *)
(* ================================================================== *)

Module ListFacts.

Lemma StronglySorted_app {A : Type} (R : A -> A -> Prop) (l1 l2 : list A) :
  StronglySorted R l1 -> StronglySorted R l2 ->
  (forall x y, In x l1 -> In y l2 -> R x y) ->
  StronglySorted R (l1 ++ l2).
Proof.
  induction l1 as [|a l1 IH]; simpl; intros H1 H2 Hc; [exact H2|].
  inversion H1 as [|? ? Hs Hall]; subst. constructor.
  - apply IH; auto.
  - apply Forall_app. split; [exact Hall|].
    rewrite Forall_forall. intros y Hy. apply Hc; auto.
Qed.

Lemma StronglySorted_NoDup {A : Type} (R : A -> A -> Prop) (l : list A) :
  (forall x, ~ R x x) -> StronglySorted R l -> NoDup l.
Proof.
  intros Hirr. induction 1 as [|a l Hs IH Hall]; constructor; auto.
  intros Hin. rewrite Forall_forall in Hall. exact (Hirr a (Hall a Hin)).
Qed.

Lemma map_flat_map {A B C : Type} (f : B -> C) (g : A -> list B) (l : list A) :
  map f (flat_map g l) = flat_map (fun x => map f (g x)) l.
Proof.
  induction l as [|a l IH]; simpl; [reflexivity|].
  now rewrite map_app, IH.
Qed.

Lemma flat_map_ext_in {A B : Type} (f g : A -> list B) (l : list A) :
  (forall x, In x l -> f x = g x) -> flat_map f l = flat_map g l.
Proof.
  induction l as [|a l IH]; simpl; intros H; [reflexivity|].
  rewrite H by now left. rewrite IH; auto.
Qed.

Lemma flat_map_singleton {A B : Type} (f : A -> B) (l : list A) :
  flat_map (fun x => [f x]) l = map f l.
Proof. induction l; simpl; congruence. Qed.

Lemma Forall2_map_r {A B : Type} (R : A -> B -> Prop) (f : A -> B) (l : list A) :
  (forall x, In x l -> R x (f x)) -> Forall2 R l (map f l).
Proof.
  induction l as [|a l IH]; simpl; intros H; constructor; auto.
Qed.

Lemma for_each_total {A S : Type} (l : list A) (body : A -> S -> option S)
  (step : S -> A -> S) (s : S) :
  (forall x, In x l -> forall s', body x s' = Some (step s' x)) ->
  for_each l body s = Some (fold_left step l s).
Proof.
  revert s. induction l as [|x l IH]; intros s H; [reflexivity|].
  cbn [for_each fold_left]. rewrite H by now left. cbn [bind].
  apply IH. intros y Hy. apply H. now right.
Qed.

Lemma fold_left_snoc {A B : Type} (f : A -> B) (l : list A) (acc : list B) :
  fold_left (fun acc x => acc ++ [f x]) l acc = acc ++ map f l.
Proof.
  revert acc. induction l as [|x l IH]; intros acc; simpl.
  - now rewrite app_nil_r.
  - now rewrite IH, <- app_assoc.
Qed.

Lemma fold_left_ext_eq {A S : Type} (f g : S -> A -> S) (l : list A) (s : S) :
  (forall s' x, f s' x = g s' x) -> fold_left f l s = fold_left g l s.
Proof.
  intros H. revert s. induction l as [|x l IH]; intros s; simpl; [reflexivity|].
  now rewrite H, IH.
Qed.

End ListFacts.

(* ================================================================== *)
(** * Integers and loops *)
(* ================================================================== *)

Lemma static_cast_int_fits (n : Z) :
  0 <= n <= INT_MAX -> static_cast_int n = n.
Proof.
  unfold static_cast_int, INT_MAX. intros H.
  rewrite Z.mod_small; lia.
Qed.

Lemma static_cast_int_le (n : Z) : 0 <= n -> static_cast_int n <= n.
Proof.
  unfold static_cast_int. intros H.
  pose proof (Z.mod_le (n + 2 ^ 31) (2 ^ 32)). lia.
Qed.

Lemma zrange_In (n : nat) (k x : Z) :
  In x (zrange n k) <-> k <= x < k + Z.of_nat n.
Proof.
  revert k. induction n as [|n IH]; intros k; simpl zrange.
  - simpl. lia.
  - simpl In. rewrite IH. lia.
Qed.

Lemma zrange_length (n : nat) (k : Z) : List.length (zrange n k) = n.
Proof. revert k. induction n; intros; simpl; auto. Qed.

(** A loop whose every round appends [f k] to the results collects the
    [f k] in the order of the rounds. *)
Lemma for_rounds_collect {A : Type} (f : Z -> list A) (n : nat) (k : Z)
  (body : Z -> list A -> option (list A)) (s : list A) :
  (forall k', k <= k' < k + Z.of_nat n -> forall s', body k' s' = Some (s' ++ f k')) ->
  for_rounds n k body s = Some (s ++ flat_map f (zrange n k)).
Proof.
  revert k s. induction n as [|n IH]; intros k s Hbody.
  - simpl. now rewrite app_nil_r.
  - cbn [for_rounds zrange flat_map]. rewrite Hbody by lia. cbn [bind].
    rewrite IH.
    + now rewrite <- app_assoc.
    + intros k' Hk'. apply Hbody. lia.
Qed.

(* ================================================================== *)
(** * cosineSimilarity: the index checks *)
(* ================================================================== *)

Module CosineFacts.
Import StdMap SimilarityChecker.

(** The index check of [cosineSimilarity] and [compareAll]. *)
Lemma index_check_rejects (sc : SimilarityChecker.t) (i j : Z) :
  i < 0 \/ numVectors sc <= i \/ j < 0 \/ numVectors sc <= j ->
  (i <? 0) || (i >=? static_cast_int (numVectors sc))
  || (j <? 0) || (j >=? static_cast_int (numVectors sc)) = true.
Proof.
  intros H.
  pose proof (static_cast_int_le (numVectors sc) (Zle_0_nat _)) as Hle.
  set (n := static_cast_int _) in *.
  destruct (Z.ltb_spec i 0); [reflexivity|].
  destruct (Z.geb_spec i n); [reflexivity|].
  destruct (Z.ltb_spec j 0); [reflexivity|].
  destruct (Z.geb_spec j n); [reflexivity|].
  lia.
Qed.

Lemma index_check_accepts (sc : SimilarityChecker.t) (i : Z) :
  numVectors sc <= INT_MAX -> 0 <= i < numVectors sc ->
  (i <? 0) || (i >=? static_cast_int (numVectors sc)) = false.
Proof.
  intros Hfit Hi. rewrite static_cast_int_fits by lia.
  destruct (Z.ltb_spec i 0); [lia|].
  destruct (Z.geb_spec i (numVectors sc)); [lia|reflexivity].
Qed.

(** An index that passes the check is the position of a stored vector. *)
Lemma index_check_sound (sc : SimilarityChecker.t) (i : Z) :
  (i <? 0) || (i >=? static_cast_int (numVectors sc)) = false ->
  0 <= i < numVectors sc.
Proof.
  pose proof (static_cast_int_le (numVectors sc) (Zle_0_nat _)) as Hle.
  destruct (Z.ltb_spec i 0); [discriminate|].
  destruct (Z.geb_spec i (static_cast_int (numVectors sc))); [discriminate|].
  lia.
Qed.

Lemma nth_error_valid {A : Type} (l : list A) (i : Z) :
  0 <= i < Z.of_nat (List.length l) ->
  exists x, nth_error l (Z.to_nat i) = Some x.
Proof.
  intros Hi. destruct (nth_error l (Z.to_nat i)) eqn:E; [eauto|].
  apply nth_error_None in E. lia.
Qed.

(** C2.  When one of the two indices is negative or at least the number
    of stored vectors, [cosineSimilarity] returns exactly 0.0: it returns
    normally and reads no vector. *)
Theorem cosineSimilarity_out_of_range (sc : SimilarityChecker.t) (i j : Z) :
  i < 0 \/ numVectors sc <= i \/ j < 0 \/ numVectors sc <= j ->
  cosineSimilarity sc i j = Some 0%float.
Proof.
  intros H. unfold cosineSimilarity. fold (numVectors sc).
  now rewrite (index_check_rejects sc i j H).
Qed.

(** C3.  For a valid index [i], [cosineSimilarity(i, i)] is exactly 1.0,
    whatever the vector stored at [i] is (also one of magnitude zero): the
    answer is given before any vector is read.  The number of vectors is
    one an [int] can hold, as the code's [static_cast<int>] assumes. *)
Theorem cosineSimilarity_self (sc : SimilarityChecker.t) (i : Z) :
  numVectors sc <= INT_MAX ->
  0 <= i < numVectors sc ->
  cosineSimilarity sc i i = Some 1%float.
Proof.
  intros Hfit Hi. unfold cosineSimilarity. fold (numVectors sc).
  rewrite <- orb_assoc, (index_check_accepts sc i Hfit Hi). cbn [orb].
  now rewrite Z.eqb_refl.
Qed.

(** For two distinct valid indices the vectors are read and the formula
    is evaluated, unless a magnitude is zero. *)
Lemma cosineSimilarity_distinct (sc : SimilarityChecker.t) (i j : Z) vec1 vec2 :
  numVectors sc <= INT_MAX ->
  0 <= i < numVectors sc -> 0 <= j < numVectors sc -> i <> j ->
  nth_error (tfidfVectors sc) (Z.to_nat i) = Some vec1 ->
  nth_error (tfidfVectors sc) (Z.to_nat j) = Some vec2 ->
  cosineSimilarity sc i j =
    Some (if PrimFloat.eqb (magnitude vec1) 0 || PrimFloat.eqb (magnitude vec2) 0
          then 0%float
          else (dotProduct vec1 vec2 / (magnitude vec1 * magnitude vec2))%float).
Proof.
  intros Hfit Hi Hj Hne E1 E2. unfold cosineSimilarity. fold (numVectors sc).
  rewrite <- orb_assoc, (index_check_accepts sc i Hfit Hi). cbn [orb].
  rewrite (index_check_accepts sc j Hfit Hj).
  destruct (Z.eqb_spec i j); [contradiction|].
  rewrite E1, E2. cbn [bind].
  now destruct (_ || _).
Qed.

(** [cosineSimilarity] always returns a number: the vectors it reads are
    there, whatever the indices and the number of vectors. *)
Lemma cosineSimilarity_total (sc : SimilarityChecker.t) (i j : Z) :
  exists x, cosineSimilarity sc i j = Some x.
Proof.
  unfold cosineSimilarity. fold (numVectors sc).
  rewrite <- orb_assoc.
  destruct ((i <? 0) || (i >=? static_cast_int (numVectors sc))) eqn:Ci;
    [now eexists|]. cbn [orb].
  destruct ((j <? 0) || (j >=? static_cast_int (numVectors sc))) eqn:Cj;
    [now eexists|].
  destruct (i =? j); [now eexists|].
  destruct (nth_error_valid (tfidfVectors sc) i) as [v1 ->];
    [now apply index_check_sound|].
  destruct (nth_error_valid (tfidfVectors sc) j) as [v2 ->];
    [now apply index_check_sound|].
  cbn [bind].
  destruct (PrimFloat.eqb (magnitude v1) 0 || PrimFloat.eqb (magnitude v2) 0);
    now eexists.
Qed.

End CosineFacts.

(* ================================================================== *)
(** * compareAll: every pair once, in order *)
(* ================================================================== *)

Module CompareAllFacts.
Import StdMap SimilarityChecker ListFacts CosineFacts.

(** ** The list of index pairs *)

Lemma index_pairs_In (n i j : Z) :
  In (i, j) (index_pairs n) <-> 0 <= i < j /\ j < n.
Proof.
  unfold index_pairs. rewrite in_flat_map. split.
  - intros [i' [Hi' Hin]]. apply in_map_iff in Hin as [j' [[= -> ->] Hj']].
    apply zrange_In in Hi', Hj'. lia.
  - intros [Hij Hj]. exists i. split.
    + apply zrange_In. lia.
    + apply in_map_iff. exists j. split; [reflexivity|].
      apply zrange_In. lia.
Qed.

Lemma row_sorted (i : Z) (m : nat) (a : Z) :
  StronglySorted pair_lt (map (pair i) (zrange m a)).
Proof.
  revert a. induction m as [|m IH]; intros a; simpl; constructor; [apply IH|].
  rewrite Forall_forall. intros [i' j'] Hin.
  apply in_map_iff in Hin as [j [[= -> ->] Hj]]. apply zrange_In in Hj.
  right. simpl. lia.
Qed.

Lemma rows_sorted (n : Z) (m : nat) (lo : Z) :
  StronglySorted pair_lt
    (flat_map (fun i => map (pair i) (zrange (Z.to_nat (n - (i + 1))) (i + 1)))
       (zrange m lo)).
Proof.
  revert lo. induction m as [|m IH]; intros lo; simpl; [constructor|].
  apply StronglySorted_app; [apply row_sorted | apply IH |].
  intros [i1 j1] [i2 j2] H1 H2.
  apply in_map_iff in H1 as [j [[= -> ->] _]].
  apply in_flat_map in H2 as [i [Hi H2]].
  apply in_map_iff in H2 as [j' [[= -> ->] _]].
  apply zrange_In in Hi. left. simpl. lia.
Qed.

Lemma index_pairs_sorted (n : Z) : StronglySorted pair_lt (index_pairs n).
Proof. apply rows_sorted. Qed.

Lemma pair_lt_irrefl (p : Z * Z) : ~ pair_lt p p.
Proof. unfold pair_lt. lia. Qed.

Lemma rows_length (n : Z) (m : nat) (lo : Z) :
  lo + Z.of_nat m = n ->
  2 * Z.of_nat (List.length
        (flat_map (fun i => map (pair i) (zrange (Z.to_nat (n - (i + 1))) (i + 1)))
           (zrange m lo)))
  = Z.of_nat m * (Z.of_nat m - 1).
Proof.
  revert lo. induction m as [|m IH]; intros lo Hn; [reflexivity|].
  cbn [zrange flat_map]. rewrite length_app, length_map, zrange_length.
  rewrite Nat2Z.inj_add, Z.mul_add_distr_l, IH by lia.
  replace (Z.to_nat (n - (lo + 1))) with m by lia. lia.
Qed.

Lemma index_pairs_length (n : Z) :
  0 <= n -> Z.of_nat (List.length (index_pairs n)) = n * (n - 1) / 2.
Proof.
  intros Hn. unfold index_pairs.
  pose proof (rows_length n (Z.to_nat n) 0 ltac:(lia)) as H.
  rewrite Z2Nat.id in H by lia.
  apply Z.div_unique_exact; lia.
Qed.

(** ** The loops *)

Lemma nameOf_total (sc : SimilarityChecker.t) (i : Z) :
  0 <= i -> exists s, nameOf sc i = Some s.
Proof.
  intros Hi. unfold nameOf.
  pose proof (static_cast_int_le (Z.of_nat (List.length (documentNames sc)))
                (Zle_0_nat _)) as Hle.
  destruct (Z.ltb_spec i (static_cast_int (Z.of_nat (List.length (documentNames sc)))));
    [|eauto].
  apply nth_error_valid. lia.
Qed.

Lemma entry_result_of (sc : SimilarityChecker.t) (p : Z * Z) :
  numVectors sc <= INT_MAX -> 0 <= fst p -> 0 <= snd p ->
  result_of sc p (entry sc p).
Proof.
  intros Hfit H1 H2. unfold result_of, entry. simpl.
  destruct (nameOf_total sc (fst p) H1) as [s1 ->].
  destruct (nameOf_total sc (snd p) H2) as [s2 ->].
  destruct (cosineSimilarity_total sc (fst p) (snd p)) as [x ->].
  auto.
Qed.

Lemma compareAll_entries (sc : SimilarityChecker.t) :
  numVectors sc <= INT_MAX ->
  compareAll sc = Some (map (entry sc) (index_pairs (numVectors sc))).
Proof.
  intros Hfit. unfold compareAll. fold (numVectors sc).
  rewrite static_cast_int_fits by (unfold numVectors in *; lia).
  unfold for_int at 1. rewrite Z.sub_0_r.
  rewrite for_rounds_collect with
    (f := fun i => map (fun j => entry sc (i, j))
                     (zrange (Z.to_nat (numVectors sc - (i + 1))) (i + 1))).
  - simpl. unfold index_pairs. rewrite map_flat_map.
    f_equal. apply flat_map_ext_in. intros i _. now rewrite map_map.
  - intros i Hi results. unfold for_int.
    rewrite for_rounds_collect with (f := fun j => [entry sc (i, j)]).
    + now rewrite flat_map_singleton.
    + intros j Hj s'.
      destruct (entry_result_of sc (i, j) Hfit) as (E1 & E2 & E3);
        [simpl; lia | simpl; lia |].
      simpl in E1, E2, E3. rewrite E3, E1, E2. reflexivity.
Qed.

(** C5.  For [N] stored vectors ([N] a number an [int] can hold),
    [compareAll] returns one result per index pair [(i, j)] with
    [0 <= i < j < N], in the order of the nested iteration: the list of
    pairs it follows holds exactly those pairs (no self pair, no reversed
    pair), is strictly increasing by [i] then [j] (so without duplicates),
    and has [N * (N - 1) / 2] elements; each result carries the two names
    and the similarity of its pair.  For [N <= 1] the result is empty. *)
Theorem compareAll_pairs (sc : SimilarityChecker.t) :
  numVectors sc <= INT_MAX ->
  exists results,
    compareAll sc = Some results /\
    Z.of_nat (List.length results) = numVectors sc * (numVectors sc - 1) / 2 /\
    Forall2 (result_of sc) (index_pairs (numVectors sc)) results /\
    (forall i j, In (i, j) (index_pairs (numVectors sc))
                 <-> 0 <= i < j /\ j < numVectors sc) /\
    StronglySorted pair_lt (index_pairs (numVectors sc)) /\
    NoDup (index_pairs (numVectors sc)) /\
    (numVectors sc <= 1 -> results = []).
Proof.
  intros Hfit. exists (map (entry sc) (index_pairs (numVectors sc))).
  assert (Hn : 0 <= numVectors sc) by apply Zle_0_nat.
  assert (Hlen : Z.of_nat (List.length (map (entry sc) (index_pairs (numVectors sc))))
                 = numVectors sc * (numVectors sc - 1) / 2).
  { rewrite length_map. now apply index_pairs_length. }
  split; [now apply compareAll_entries|].
  split; [exact Hlen|].
  split.
  { apply Forall2_map_r. intros [i j] Hin. apply index_pairs_In in Hin.
    apply entry_result_of; simpl; lia. }
  split; [intros i j; apply index_pairs_In|].
  split; [apply index_pairs_sorted|].
  split.
  { eapply StronglySorted_NoDup; [apply pair_lt_irrefl | apply index_pairs_sorted]. }
  intros Hle. apply length_zero_iff_nil.
  assert (numVectors sc * (numVectors sc - 1) / 2 = 0).
  { assert (numVectors sc = 0 \/ numVectors sc = 1) as [->| ->] by lia; reflexivity. }
  lia.
Qed.

End CompareAllFacts.

(* ================================================================== *)
(** * Facts about binary64 arithmetic *)
(* ================================================================== *)

Module FloatFacts.

Lemma mul_comm (x y : float) : (x * y = y * x)%float.
Proof.
  apply Prim2SF_inj. rewrite !mul_spec. unfold SF64mul, SFmul.
  destruct (Prim2SF x) as [sx|sx| |sx mx ex], (Prim2SF y) as [sy|sy| |sy my ey];
    try reflexivity; rewrite (xorb_comm sx sy); try reflexivity.
  now rewrite Pos.mul_comm, Z.add_comm.
Qed.

Lemma SFcompare_antisym (x y : spec_float) :
  SFcompare y x = option_map CompOpp (SFcompare x y).
Proof.
  destruct x as [sx|sx| |sx mx ex], y as [sy|sy| |sy my ey]; simpl;
    try reflexivity;
    try (destruct sx; reflexivity); try (destruct sy; reflexivity);
    try (destruct sx, sy; reflexivity).
  pose proof (Pos.compare_cont_antisym mx my Eq) as Hm. simpl in Hm.
  destruct sx, sy; try reflexivity; f_equal;
    rewrite (Z.compare_antisym ey ex);
    destruct (ey ?= ex)%Z; simpl; try reflexivity;
    rewrite <- Hm; now rewrite ?CompOpp_involutive.
Qed.


Lemma ltb_irrefl (x : float) : PrimFloat.ltb x x = false.
Proof.
  rewrite ltb_spec. unfold SFltb.
  pose proof (SFcompare_antisym (Prim2SF x) (Prim2SF x)) as H.
  destruct (SFcompare (Prim2SF x) (Prim2SF x)) as [[| |]|]; simpl in *; congruence.
Qed.

(** A double that is neither NaN nor infinite. *)
Lemma is_finite_cases (x : float) :
  PrimFloat.is_finite x = true ->
  (exists s, Prim2SF x = S754_zero s) \/ (exists s m e, Prim2SF x = S754_finite s m e).
Proof.
  unfold is_finite, is_nan, is_infinity.
  rewrite !eqb_spec, abs_spec.
  destruct (Prim2SF x) as [s|s| |s m e]; simpl; eauto.
  - destruct s; vm_compute; discriminate.
  - discriminate.
Qed.

Lemma zero_mul_finite (y : float) :
  PrimFloat.is_finite y = true -> is_zero (0 * y)%float.
Proof.
  intros H. unfold is_zero. rewrite mul_spec. unfold SF64mul, SFmul.
  change (Prim2SF 0) with (S754_zero false).
  destruct (is_finite_cases y H) as [[s ->]|(s & m & e & ->)]; eauto.
Qed.

(** Adding the square of a zero to [+0] leaves [+0]. *)
Lemma add_square_zero (x : float) : is_zero x -> (0 + x * x = 0)%float.
Proof.
  intros [s H]. apply Prim2SF_inj. rewrite add_spec, mul_spec, H.
  change (Prim2SF 0) with (S754_zero false).
  now destruct s.
Qed.

End FloatFacts.

(* ================================================================== *)
(** * dotProduct and cosineSimilarity: symmetry and range *)
(* ================================================================== *)

Module SymmetryFacts.
Import StdMap StdMapFacts SimilarityChecker FloatFacts.

Lemma dotProduct_dot_loop (vec1 vec2 : StdMap.t float) :
  dotProduct vec1 vec2 =
    if (size vec1 <? size vec2)%nat then dot_loop vec1 vec2 0%float
    else dot_loop vec2 vec1 0%float.
Proof. unfold dotProduct, dot_loop. now destruct (_ <? _)%nat. Qed.

Lemma dot_loop_cons (k : string) (x : float) (a b : StdMap.t float) (r : float) :
  dot_loop ((k, x) :: a) b r =
    dot_loop a b (match find k b with
                  | Some y => (r + x * y)%float
                  | None => r
                  end).
Proof. reflexivity. Qed.

Lemma find_head {V : Type} (k : string) (v : V) (m : StdMap.t V) :
  find k ((k, v) :: m) = Some v.
Proof. simpl. now rewrite String.eqb_refl. Qed.

Lemma dot_loop_nil_r (a : StdMap.t float) (r : float) : dot_loop a [] r = r.
Proof.
  revert r. induction a as [|[k x] a IH]; intros r; [reflexivity|].
  rewrite dot_loop_cons. apply IH.
Qed.

(** An entry of [b] whose key does not occur in [a] is never found. *)
Lemma dot_loop_skip (a b : StdMap.t float) (k : string) (y r : float) :
  ~ In k (keys a) -> dot_loop a ((k, y) :: b) r = dot_loop a b r.
Proof.
  revert r. induction a as [|[k1 x1] a IH]; intros r Hk; [reflexivity|].
  rewrite !dot_loop_cons. cbn [find].
  simpl in Hk. destruct (String.eqb_spec k1 k) as [->|_]; [tauto|].
  apply IH. tauto.
Qed.

Lemma wf_head_notin {V : Type} (k : string) (v : V) (m : StdMap.t V) :
  wf ((k, v) :: m) -> ~ In k (keys m).
Proof.
  intros Hwf Hin. apply wf_head in Hwf. rewrite Forall_forall in Hwf.
  exact (key_lt_irrefl _ (Hwf _ Hin)).
Qed.

Lemma wf_below_notin {V : Type} (k k' : string) (v : V) (m : StdMap.t V) :
  key_lt k k' -> wf ((k', v) :: m) -> ~ In k (keys ((k', v) :: m)).
Proof.
  intros Hlt Hwf. apply find_None_iff. now apply find_below.
Qed.

(** Visiting [a] and probing [b] adds the same products, in the same
    order, as visiting [b] and probing [a]: both visit the common keys in
    increasing order. *)
Lemma dot_loop_comm (a : StdMap.t float) :
  wf a -> forall b, wf b -> forall r, dot_loop a b r = dot_loop b a r.
Proof.
  induction a as [|[k1 x1] a IHa]; intros Ha b Hb r.
  - now rewrite dot_loop_nil_r.
  - revert r. induction b as [|[k2 x2] b IHb]; intros r.
    + now rewrite dot_loop_nil_r.
    + pose proof (wf_tail _ _ _ Ha) as Ha'. pose proof (wf_tail _ _ _ Hb) as Hb'.
      cmp k1 k2.
      * (* the same key heads both maps *)
        rewrite (dot_loop_cons k2 x1 a), (dot_loop_cons k2 x2 b), !find_head.
        rewrite (dot_loop_skip a b) by (eapply wf_head_notin; eauto).
        rewrite (dot_loop_skip b a) by (eapply wf_head_notin; eauto).
        rewrite (mul_comm x2 x1). now apply IHa.
      * (* [k1] is below every key of [b] *)
        rewrite (dot_loop_cons k1 x1 a), (find_below _ _ _ _ Hcmp Hb).
        rewrite (dot_loop_skip ((k2, x2) :: b) a k1 x1 r)
          by now apply wf_below_notin with (v := x2).
        now apply IHa.
      * (* [k2] is below every key of [a] *)
        rewrite (dot_loop_cons k2 x2 b), (find_below _ _ _ _ Hcmp Ha).
        rewrite (dot_loop_skip ((k1, x1) :: a) b k2 x2 r)
          by now apply wf_below_notin with (v := x1).
        now apply IHb.
Qed.

Lemma dotProduct_comm (vec1 vec2 : StdMap.t float) :
  wf vec1 -> wf vec2 -> dotProduct vec1 vec2 = dotProduct vec2 vec1.
Proof.
  intros H1 H2. rewrite !dotProduct_dot_loop.
  destruct (Nat.ltb_spec (size vec1) (size vec2)), (Nat.ltb_spec (size vec2) (size vec1));
    try reflexivity; try lia.
  now apply dot_loop_comm.
Qed.

(** C6.  [cosineSimilarity(i, j)] and [cosineSimilarity(j, i)] are the same
    double, for all indices, whichever of the two maps [dotProduct] chooses
    to iterate.  The stored vectors are [std::map]s: their keys are
    strictly increasing. *)
Theorem cosineSimilarity_sym (sc : SimilarityChecker.t) (i j : Z) :
  Forall wf (tfidfVectors sc) ->
  cosineSimilarity sc i j = cosineSimilarity sc j i.
Proof.
  intros Hwf. unfold cosineSimilarity.
  set (n := static_cast_int _).
  destruct (i <? 0), (i >=? n), (j <? 0), (j >=? n); try reflexivity. cbn [orb].
  rewrite (Z.eqb_sym j i). destruct (i =? j); [reflexivity|].
  destruct (nth_error (tfidfVectors sc) (Z.to_nat i)) as [vec1|] eqn:E1,
           (nth_error (tfidfVectors sc) (Z.to_nat j)) as [vec2|] eqn:E2;
    try reflexivity. cbn [bind].
  rewrite Forall_forall in Hwf.
  rewrite (dotProduct_comm vec1 vec2)
    by (apply Hwf; eapply nth_error_In; eauto).
  rewrite (mul_comm (magnitude vec1) (magnitude vec2)).
  now rewrite orb_comm.
Qed.

(** C7 (the code at a failing input).  With the vector of three weights 1
    stored for two documents, the similarity of the two is
    [1.0000000000000002], above 1: the dot product is 3, each magnitude is
    [sqrt 3] rounded, and their product is [2.9999999999999996]. *)
Theorem cosineSimilarity_above_one :
  SimilarityChecker.magnitude ones = 0x1.bb67ae8584caap+0%float /\
  (SimilarityChecker.magnitude ones * SimilarityChecker.magnitude ones
   = 0x1.7ffffffffffffp+1)%float /\
  SimilarityChecker.cosineSimilarity two_ones 0 1 = Some 0x1.0000000000001p+0%float /\
  PrimFloat.ltb 1 0x1.0000000000001p+0 = true.
Proof. vm_compute. repeat split. Qed.

End SymmetryFacts.

(* ================================================================== *)
(** * writeCSV: the report *)
(* ================================================================== *)

Module ReportFacts.
Import ReportWriter FloatFacts.

Lemma append_assoc (a b c : string) : ((a ++ b) ++ c = a ++ (b ++ c))%string.
Proof. induction a as [|ch a IH]; simpl; congruence. Qed.

Lemma append_nil_r (a : string) : (a ++ "" = a)%string.
Proof. induction a as [|ch a IH]; simpl; congruence. Qed.

Lemma fold_rows (f : string * string * float -> string)
  (results : list (string * string * float)) (start : string) :
  fold_left (fun content result => (content ++ f result)%string) results start
  = (start ++ lines (map f results))%string.
Proof.
  revert start. induction results as [|r results IH]; intros start; simpl.
  - now rewrite append_nil_r.
  - now rewrite IH, append_assoc.
Qed.

Section WithStream.
Variable put_fixed : nat -> float -> string.


End WithStream.

End ReportFacts.

(* ================================================================== *)
(** * FeatureExtractor: vocabulary, IDF and TF-IDF vectors *)
(* ================================================================== *)

Module FeatureFacts.
Import StdMap StdMapFacts FeatureExtractor ListFacts.

(** ** Entries inserted in increasing key order *)

Lemma sorted_app_below (l1 l2 : list string) (k : string) :
  StronglySorted key_lt (l1 ++ k :: l2) -> Forall (fun k' => key_lt k' k) l1.
Proof.
  induction l1 as [|a l1 IH]; simpl; intros H; [constructor|].
  inversion H as [|? ? Hs Hall]; subst. constructor.
  - rewrite Forall_forall in Hall. apply Hall, in_elt.
  - now apply IH.
Qed.

Lemma insert_in_order {A V : Type} (kf : A -> string) (vf : A -> V)
  (l : list A) (acc : StdMap.t V) :
  StronglySorted key_lt (keys acc ++ map kf l) ->
  fold_left (fun acc a => insert (kf a) (vf a) acc) l acc
  = acc ++ map (fun a => (kf a, vf a)) l.
Proof.
  revert acc. induction l as [|a l IH]; intros acc Hs; simpl.
  - now rewrite app_nil_r.
  - simpl in Hs. rewrite insert_above by now apply sorted_app_below in Hs.
    rewrite IH.
    + now rewrite <- app_assoc.
    + unfold keys. rewrite map_app. simpl. now rewrite <- app_assoc.
Qed.

Lemma find_map_entry {V : Type} (f : string -> V) (l : list string) (k : string) :
  In k l -> find k (map (fun t => (t, f t)) l) = Some (f k).
Proof.
  induction l as [|a l IH]; simpl; [tauto|].
  destruct (String.eqb_spec k a) as [->|Hne]; [reflexivity|].
  intros [H|H]; [congruence|auto].
Qed.

Lemma keys_map_entry {V : Type} (f : string -> V) (l : list string) :
  keys (map (fun t => (t, f t)) l) = l.
Proof. unfold keys. rewrite map_map. simpl. apply map_id. Qed.

(** ** buildVocabulary *)

Lemma add_words_sorted (doc s : list string) :
  StronglySorted key_lt s ->
  StronglySorted key_lt (fold_left (fun s word => set_insert word s) doc s).
Proof.
  revert s. induction doc as [|w doc IH]; intros s Hs; simpl; [exact Hs|].
  now apply IH, set_insert_sorted.
Qed.

Lemma add_words_In (doc s : list string) (k : string) :
  In k (fold_left (fun s word => set_insert word s) doc s) <-> In k doc \/ In k s.
Proof.
  revert s. induction doc as [|w doc IH]; intros s; simpl; [tauto|].
  rewrite IH, set_insert_In. intuition.
Qed.

Lemma add_docs_sorted (docs : list (list string)) (s : list string) :
  StronglySorted key_lt s ->
  StronglySorted key_lt
    (fold_left
       (fun vocabSet doc =>
          fold_left (fun vocabSet word => set_insert word vocabSet) doc vocabSet)
       docs s).
Proof.
  revert s. induction docs as [|d docs IH]; intros s Hs; simpl; [exact Hs|].
  now apply IH, add_words_sorted.
Qed.

Lemma add_docs_In (docs : list (list string)) (s : list string) (k : string) :
  In k (fold_left
          (fun vocabSet doc =>
             fold_left (fun vocabSet word => set_insert word vocabSet) doc vocabSet)
          docs s)
  <-> (exists doc, In doc docs /\ In k doc) \/ In k s.
Proof.
  revert s. induction docs as [|d docs IH]; intros s; simpl.
  - split; [tauto|]. intros [[doc [[] _]]|H]; exact H.
  - rewrite IH, add_words_In. split.
    + intros [[doc [Hd Hk]]|[H|H]]; eauto 6.
    + intros [[doc [[<-|Hd] Hk]]|H]; eauto 6.
Qed.

Lemma buildVocabulary_sorted (docs : list (list string)) :
  StronglySorted key_lt (buildVocabulary docs).
Proof. apply add_docs_sorted. constructor. Qed.

Lemma buildVocabulary_In (docs : list (list string)) (k : string) :
  In k (buildVocabulary docs) <-> exists doc, In doc docs /\ In k doc.
Proof.
  unfold buildVocabulary. rewrite add_docs_In. simpl. tauto.
Qed.

(** ** computeIDF *)

Lemma existsb_eqb_In (term : string) (doc : list string) :
  existsb (String.eqb term) doc = if in_dec string_dec term doc then true else false.
Proof.
  destruct (in_dec string_dec term doc) as [Hin|Hnin].
  - apply existsb_exists. exists term. split; [exact Hin|apply String.eqb_refl].
  - destruct (existsb (String.eqb term) doc) eqn:E; [|reflexivity].
    apply existsb_exists in E as [x [Hx E]]. apply String.eqb_eq in E. now subst.
Qed.

Lemma docCount_from (docs : list (list string)) (term : string) (count : Z) :
  fold_left
    (fun count doc => if existsb (String.eqb term) doc then count + 1 else count)
    docs count
  = count + Z.of_nat (documentsWith term docs).
Proof.
  revert count. unfold documentsWith.
  induction docs as [|d docs IH]; intros count; simpl; [lia|].
  rewrite IH, existsb_eqb_In.
  destruct (in_dec string_dec term d); simpl List.length; lia.
Qed.

Lemma docCount_documentsWith (docs : list (list string)) (term : string) :
  docCount docs term = Z.of_nat (documentsWith term docs).
Proof. unfold docCount. now rewrite docCount_from. Qed.

(** ** computeTF *)

Lemma countTerms_loop (doc : list string) (m : StdMap.t Z) (t : string) :
  find t (fold_left (fun termCount term => increment term termCount) doc m)
  = match count_occ string_dec doc t with
    | O => find t m
    | S n => Some (count_of m t + Z.of_nat (S n))
    end.
Proof.
  revert m. induction doc as [|w doc IH]; intros m; [reflexivity|].
  cbn [fold_left]. rewrite IH. unfold increment, count_of.
  cbn [count_occ]. destruct (string_dec w t) as [->|Hne].
  - rewrite find_insert_same.
    destruct (count_occ string_dec doc t); f_equal; lia.
  - now rewrite find_insert_other.
Qed.

Lemma countTerms_find (doc : list string) (t : string) :
  find t (countTerms doc)
  = match count_occ string_dec doc t with
    | O => None
    | S n => Some (Z.of_nat (S n))
    end.
Proof. unfold countTerms. rewrite countTerms_loop. reflexivity. Qed.

Lemma countTerms_wf (doc : list string) : wf (countTerms doc).
Proof.
  unfold countTerms.
  assert (H : forall m : StdMap.t Z, wf m ->
            wf (fold_left (fun termCount term => increment term termCount) doc m)).
  { induction doc as [|w doc IH]; intros m Hm; [exact Hm|].
    cbn [fold_left]. apply IH. unfold increment. now apply wf_insert. }
  apply H, wf_nil.
Qed.

(** The TF map is the map of counts with every count divided by the
    number of tokens. *)
Lemma computeTF_entries (doc : list string) :
  computeTF doc
  = map (fun e => (fst e, (to_double (snd e)
                           / to_double (Z.of_nat (List.length doc)))%float))
      (countTerms doc).
Proof.
  destruct doc as [|w doc]; [reflexivity|].
  unfold computeTF. set (d := w :: doc).
  rewrite fold_left_ext_eq with
    (g := fun tf e => insert (fst e)
                        (to_double (snd e) / to_double (Z.of_nat (List.length d)))%float
                        tf)
    by (now intros tf [term count]).
  rewrite (insert_in_order fst
             (fun e => (to_double (snd e) / to_double (Z.of_nat (List.length d)))%float));
    [reflexivity|].
  exact (countTerms_wf d).
Qed.

Lemma find_map_values {V W : Type} (f : V -> W) (m : StdMap.t V) (k : string) :
  find k (map (fun e => (fst e, f (snd e))) m) = option_map f (find k m).
Proof.
  induction m as [|[k' v] m IH]; simpl; [reflexivity|].
  now destruct (String.eqb k k').
Qed.

Lemma computeTF_find (doc : list string) (t : string) :
  find t (computeTF doc)
  = option_map
      (fun c => (to_double c / to_double (Z.of_nat (List.length doc)))%float)
      (find t (countTerms doc)).
Proof.
  rewrite computeTF_entries.
  apply (find_map_values
           (fun c => (to_double c / to_double (Z.of_nat (List.length doc)))%float)).
Qed.

Lemma tfValue_absent (doc : list string) (term : string) :
  ~ In term doc -> tfValue doc term = 0%float.
Proof.
  intros Hnin. unfold tfValue. rewrite computeTF_find, countTerms_find.
  now rewrite (proj1 (count_occ_not_In string_dec doc term) Hnin).
Qed.



Section WithLog10.
Variable log10 : float -> float.

Lemma computeIDF_loop (docs : list (list string)) (vocab : list string)
  (acc : StdMap.t float) (term : string) :
  find term
    (fold_left (fun idf t => insert t (idfValue log10 docs t) idf) vocab acc)
  = if in_dec string_dec term vocab then Some (idfValue log10 docs term)
    else find term acc.
Proof.
  revert acc. induction vocab as [|t vocab IH]; intros acc; [reflexivity|].
  cbn [fold_left]. rewrite IH. simpl in_dec.
  destruct (in_dec string_dec term vocab) as [Hin|Hnin];
    destruct (string_dec t term) as [->|Hne]; try reflexivity.
  - apply find_insert_same.
  - now apply find_insert_other.
Qed.

Lemma computeIDF_find (fe : FeatureExtractor.t) (term : string) :
  documents fe <> [] -> In term (vocabulary fe) ->
  find term (computeIDF log10 fe) = Some (idfValue log10 (documents fe) term).
Proof.
  intros Hne Hin. unfold computeIDF.
  destruct (documents fe) as [|d docs] eqn:E; [contradiction|].
  rewrite fold_left_ext_eq with
    (g := fun idf t => insert t (idfValue log10 (d :: docs) t) idf).
  - rewrite computeIDF_loop. now destruct (in_dec string_dec term (vocabulary fe)).
  - intros idf t. unfold idfValue. now destruct (0 <? _).
Qed.

(** C8.  For a non-empty corpus and a term of the vocabulary, the IDF that
    [computeIDF] stores is [log10(totalDocs / docCount)], where [docCount]
    is the number of documents in which the term occurs at least once
    (however often it occurs in them); when that number is 0 the IDF is
    0.0. *)
Theorem computeIDF_value (fe : FeatureExtractor.t) (term : string) :
  documents fe <> [] ->
  In term (vocabulary fe) ->
  docCount (documents fe) term = Z.of_nat (documentsWith term (documents fe)) /\
  find term (computeIDF log10 fe)
    = Some (if (0 <? documentsWith term (documents fe))%nat
            then log10 (to_double (Z.of_nat (List.length (documents fe)))
                        / to_double (Z.of_nat (documentsWith term (documents fe))))%float
            else 0%float).
Proof.
  intros Hne Hin.
  split; [apply docCount_documentsWith|].
  rewrite computeIDF_find by assumption.
  unfold idfValue. rewrite docCount_documentsWith.
  destruct (Nat.ltb_spec 0 (documentsWith term (documents fe))),
           (Z.ltb_spec 0 (Z.of_nat (documentsWith term (documents fe))));
    try reflexivity; lia.
Qed.

(** ** computeTFIDF *)

Lemma tfidfOf_weights (fe : FeatureExtractor.t) (doc : list string) :
  documents fe <> [] ->
  StronglySorted key_lt (vocabulary fe) ->
  tfidfOf (vocabulary fe) (computeIDF log10 fe) doc
  = Some (weights log10 (documents fe) (vocabulary fe) doc).
Proof.
  intros Hne Hs. unfold tfidfOf.
  rewrite for_each_total with
    (step := fun tfidf term =>
               insert term (tfValue doc term * idfValue log10 (documents fe) term)%float
                 tfidf).
  - f_equal. unfold weights.
    apply (insert_in_order (fun t => t)
             (fun t => (tfValue doc t * idfValue log10 (documents fe) t)%float)).
    simpl. now rewrite map_id.
  - intros term Hin tfidf. rewrite computeIDF_find by assumption. reflexivity.
Qed.

Lemma computeTFIDF_vectors (fe : FeatureExtractor.t) :
  StronglySorted key_lt (vocabulary fe) ->
  computeTFIDF log10 fe
  = Some (FeatureExtractor.mk (documents fe) (vocabulary fe)
            (map (weights log10 (documents fe) (vocabulary fe)) (documents fe))).
Proof.
  intros Hs. unfold computeTFIDF.
  destruct (documents fe) as [|d docs] eqn:E; [reflexivity|].
  rewrite <- E.
  rewrite for_each_total with
    (step := fun vectors doc =>
               vectors ++ [weights log10 (documents fe) (vocabulary fe) doc]).
  - cbn [bind]. now rewrite fold_left_snoc.
  - intros doc _ vectors. rewrite tfidfOf_weights; [reflexivity| |assumption].
    rewrite E. discriminate.
Qed.

(** What the constructor followed by [computeTFIDF] leaves in the object. *)
Lemma computeTFIDF_make (docs : list (list string)) :
  computeTFIDF log10 (make docs)
  = Some (FeatureExtractor.mk docs (buildVocabulary docs)
            (map (weights log10 docs (buildVocabulary docs)) docs)).
Proof.
  rewrite computeTFIDF_vectors; [reflexivity|]. apply buildVocabulary_sorted.
Qed.

(** C10.  Every vector that [computeTFIDF] produces has one entry per
    vocabulary term, in vocabulary order, so all vectors have the same keys,
    the vocabulary; a term that does not occur in the document has its
    entry too, with the weight [0.0 * idf] the code computes for it, which
    is a zero when the IDF is a number.  The call does not fail, and the
    vectors are index-aligned with the documents. *)
Theorem computeTFIDF_keys (docs : list (list string)) :
  exists fe',
    computeTFIDF log10 (make docs) = Some fe' /\
    getVocabulary fe' = getVocabulary (make docs) /\
    Forall2
      (fun doc vec =>
         keys vec = getVocabulary (make docs) /\
         (forall term, In term (getVocabulary (make docs)) ->
            exists w, find term vec = Some w) /\
         (forall term, In term (getVocabulary (make docs)) -> ~ In term doc ->
            find term vec = Some (0 * idfValue log10 docs term)%float /\
            (PrimFloat.is_finite (idfValue log10 docs term) = true ->
             is_zero (0 * idfValue log10 docs term)%float)))
      docs (getAllTFIDFVectors fe').
Proof.
  eexists. split; [apply computeTFIDF_make|].
  split; [reflexivity|].
  unfold getAllTFIDFVectors, getVocabulary. cbn [tfidfVectors vocabulary make].
  apply Forall2_map_r. intros doc _.
  unfold weights. split; [apply keys_map_entry|]. split.
  - intros term Hin. eexists. now apply find_map_entry.
  - intros term Hin Hnin. split; [|apply FloatFacts.zero_mul_finite].
    rewrite (find_map_entry
               (fun t => (tfValue doc t * idfValue log10 docs t)%float)) by assumption.
    now rewrite tfValue_absent.
Qed.

End WithLog10.

End FeatureFacts.

(* ================================================================== *)
(** * The engine: from documents to similarities *)
(* ================================================================== *)

Module EngineFacts.
Import StdMap StdMapFacts FeatureExtractor SimilarityChecker.
Import FloatFacts FeatureFacts CosineFacts.

Section WithLog10.
Variable log10 : float -> float.

Lemma engine_vectors (docs : list (list string)) (names : list string) :
  engine log10 docs names
  = Some (SimilarityChecker.mk
            (map (weights log10 docs (buildVocabulary docs)) docs) names).
Proof. unfold engine. now rewrite computeTFIDF_make. Qed.



(** ** Documents without tokens *)

Lemma magnitude_zeros (vec : StdMap.t float) :
  Forall (fun e => is_zero (snd e)) vec -> magnitude vec = 0%float.
Proof.
  intros H. unfold magnitude.
  assert (E : fold_left (fun sum '(_, value) => (sum + value * value)%float)
                vec 0%float = 0%float).
  { induction H as [|[k x] vec Hx _ IH]; [reflexivity|].
    cbn [fold_left]. simpl in Hx. now rewrite add_square_zero. }
  now rewrite E.
Qed.

Lemma weights_empty_document (docs : list (list string)) :
  idf_finite log10 docs = true ->
  Forall (fun e => is_zero (snd e)) (weights log10 docs (buildVocabulary docs) []).
Proof.
  unfold idf_finite. rewrite forallb_forall. intros Hfin.
  unfold weights. rewrite Forall_map, Forall_forall. intros term Hin. simpl.
  apply zero_mul_finite. now apply Hfin.
Qed.

(** C4.  For a document without tokens [computeTF] returns the empty map,
    and the similarity of that document [i] with any other index [j] is
    0.0, in both orders: the magnitude of its vector is zero, and nothing is
    divided.  The IDF values of the corpus are numbers, as logarithms of
    ratios between 1 and the corpus size are. *)
Theorem empty_document_similarity (docs : list (list string))
  (names : list string) (i j : Z) :
  Z.of_nat (List.length docs) <= INT_MAX ->
  idf_finite log10 docs = true ->
  0 <= i -> nth_error docs (Z.to_nat i) = Some [] ->
  j <> i ->
  computeTF [] = empty /\
  exists sc,
    engine log10 docs names = Some sc /\
    (exists v, nth_error (SimilarityChecker.tfidfVectors sc) (Z.to_nat i) = Some v /\
               magnitude v = 0%float) /\
    cosineSimilarity sc i j = Some 0%float /\
    cosineSimilarity sc j i = Some 0%float.
Proof.
  intros Hfit Hfin Hi Ei Hne. split; [reflexivity|].
  eexists. split; [apply engine_vectors|].
  set (sc := SimilarityChecker.mk _ _).
  assert (Hn : numVectors sc = Z.of_nat (List.length docs)).
  { unfold numVectors, sc. cbn [SimilarityChecker.tfidfVectors]. now rewrite length_map. }
  assert (Vi : nth_error (SimilarityChecker.tfidfVectors sc) (Z.to_nat i)
               = Some (weights log10 docs (buildVocabulary docs) []))
    by now apply map_nth_error.
  assert (Mi : magnitude (weights log10 docs (buildVocabulary docs) []) = 0%float)
    by now apply magnitude_zeros, weights_empty_document.
  assert (Hilt : i < numVectors sc).
  { rewrite Hn. assert (nth_error docs (Z.to_nat i) <> None) as H by congruence.
    apply nth_error_Some in H. lia. }
  split; [eauto|].
  assert (Hout : j < 0 \/ numVectors sc <= j ->
                 cosineSimilarity sc i j = Some 0%float /\
                 cosineSimilarity sc j i = Some 0%float).
  { intros Hj. unfold cosineSimilarity. fold (numVectors sc).
    rewrite (index_check_rejects sc i j), (index_check_rejects sc j i) by lia.
    now split. }
  destruct (Z_lt_le_dec j 0); [apply Hout; lia|].
  destruct (Z_lt_le_dec j (numVectors sc)); [|apply Hout; lia].
  clear Hout.
  destruct (nth_error_valid (SimilarityChecker.tfidfVectors sc) j) as [vj Vj];
    [unfold numVectors in *; lia|].
  split.
  - rewrite (cosineSimilarity_distinct sc i j _ vj ltac:(lia) ltac:(lia)
               ltac:(lia) ltac:(lia) Vi Vj).
    now rewrite Mi.
  - rewrite (cosineSimilarity_distinct sc j i vj _ ltac:(lia) ltac:(lia)
               ltac:(lia) ltac:(lia) Vj Vi).
    rewrite Mi. now rewrite orb_true_r.
Qed.

End WithLog10.


(** The same holds for every logarithm that is 0 at 1. *)
Lemma twins_zero_for_any_log10 (log10 : float -> float) :
  log10 1%float = 0%float ->
  (sc <- engine log10 twins [];; cosineSimilarity sc 0 1) = Some 0%float.
Proof.
  intros H. rewrite engine_vectors. cbn [bind].
  unfold weights, twins.
  assert (V : buildVocabulary [["a"]; ["a"]]%string = ["a"]%string) by reflexivity.
  rewrite V. cbn [map].
  assert (I : idfValue log10 [["a"]; ["a"]]%string "a" = 0%float).
  { unfold idfValue.
    change (docCount [["a"]; ["a"]]%string "a") with 2.
    cbn [Z.ltb Z.compare List.length].
    change (to_double (Z.of_nat 2) / to_double 2)%float with 1%float.
    exact H. }
  rewrite I.
  vm_compute. reflexivity.
Qed.

End EngineFacts.

(* ================================================================== *)
(** * The theorems at concrete inputs *)
(* ================================================================== *)

Module Examples.
Import StdMap FeatureExtractor SimilarityChecker.
Import CosineFacts CompareAllFacts SymmetryFacts FeatureFacts EngineFacts.

(** Index 2 is out of range for two stored vectors. *)
Lemma cosineSimilarity_out_of_range_witness :
  (2 < 0 \/ numVectors two_ones <= 2 \/ 0 < 0 \/ numVectors two_ones <= 0) /\
  cosineSimilarity two_ones 2 0 = Some 0%float.
Proof.
  assert (H : 2 < 0 \/ numVectors two_ones <= 2 \/ 0 < 0 \/ numVectors two_ones <= 0)
    by (right; left; vm_compute; discriminate).
  split; [exact H|]. exact (cosineSimilarity_out_of_range two_ones 2 0 H).
Defined.

(** A vector without entries has magnitude zero, and is still similar to
    itself with 1.0. *)
Lemma cosineSimilarity_self_witness :
  numVectors one_blank <= INT_MAX /\ 0 <= 0 < numVectors one_blank /\
  magnitude [] = 0%float /\
  cosineSimilarity one_blank 0 0 = Some 1%float.
Proof.
  assert (H1 : numVectors one_blank <= INT_MAX) by (vm_compute; discriminate).
  assert (H2 : 0 <= 0 < numVectors one_blank)
    by (split; vm_compute; [discriminate | reflexivity]).
  split; [exact H1|]. split; [exact H2|]. split; [reflexivity|].
  exact (cosineSimilarity_self one_blank 0 H1 H2).
Defined.

(** Three stored vectors give three results. *)
Lemma compareAll_pairs_witness :
  numVectors three_vectors <= INT_MAX /\
  exists results,
    compareAll three_vectors = Some results /\
    Z.of_nat (List.length results) = 3 /\
    Forall2 (result_of three_vectors) [(0, 1); (0, 2); (1, 2)] results.
Proof.
  assert (H : numVectors three_vectors <= INT_MAX) by (vm_compute; discriminate).
  split; [exact H|].
  destruct (compareAll_pairs three_vectors H) as (results & E & L & F & _).
  exists results. split; [exact E|]. split; [exact L|exact F].
Defined.

Lemma ones_wf : wf ones.
Proof. unfold wf. simpl. repeat constructor. Defined.

Lemma cosineSimilarity_sym_witness :
  Forall wf (SimilarityChecker.tfidfVectors two_ones) /\
  cosineSimilarity two_ones 0 1 = cosineSimilarity two_ones 1 0.
Proof.
  assert (H : Forall wf (SimilarityChecker.tfidfVectors two_ones))
    by (repeat constructor; exact ones_wf).
  split; [exact H|]. exact (cosineSimilarity_sym two_ones 0 1 H).
Defined.

(** In the scenario, [data] occurs in two of the three documents. *)
Lemma computeIDF_value_witness :
  documents (make scenario) <> [] /\
  In "data"%string (vocabulary (make scenario)) /\
  docCount scenario "data" = 2 /\
  find "data"%string (computeIDF Log10.log10 (make scenario))
  = Some (Log10.log10 (to_double 3 / to_double 2)%float).
Proof.
  assert (H1 : documents (make scenario) <> []) by discriminate.
  assert (H2 : In "data"%string (vocabulary (make scenario)))
    by (vm_compute; left; reflexivity).
  split; [exact H1|]. split; [exact H2|].
  exact (computeIDF_value Log10.log10 (make scenario) "data"%string H1 H2).
Defined.


(** The first document of [with_empty] has no tokens. *)
Lemma empty_document_similarity_witness :
  idf_finite Log10.log10 with_empty = true /\
  nth_error with_empty 0 = Some [] /\
  exists sc,
    engine Log10.log10 with_empty [] = Some sc /\
    cosineSimilarity sc 0 1 = Some 0%float /\
    cosineSimilarity sc 1 0 = Some 0%float.
Proof.
  assert (H1 : Z.of_nat (List.length with_empty) <= INT_MAX)
    by (vm_compute; discriminate).
  assert (H2 : idf_finite Log10.log10 with_empty = true) by (vm_compute; reflexivity).
  assert (H3 : 0 <= 0) by (vm_compute; discriminate).
  assert (H4 : 1 <> 0) by discriminate.
  split; [exact H2|]. split; [reflexivity|].
  destruct (empty_document_similarity Log10.log10 with_empty [] 0 1
              H1 H2 H3 eq_refl H4) as (_ & sc & E & _ & C1 & C2).
  exists sc. split; [exact E|]. split; [exact C1|exact C2].
Defined.

(** The report of three results with threshold 0.7: the second similarity
    equals the threshold and is not flagged. *)
Example report_example :
  ReportWriter.file
    (ReportWriter.writeCSV FixedFormat.put_fixed writer true three_results)
  = Some (lines
            [ ReportWriter.header;
              ReportWriter.quote; "A vs B"; ReportWriter.quote;
              ",87.32%,Yes"; ReportWriter.newline;
              ReportWriter.quote; "A vs C"; ReportWriter.quote;
              ",70.00%,No"; ReportWriter.newline;
              ReportWriter.quote; "B vs C"; ReportWriter.quote;
              ",100.00%,Yes"; ReportWriter.newline ])%string.
Proof. vm_compute. reflexivity. Qed.

(** The specification's scenario: the two identical documents come out
    close to 1, the disjoint ones at 0; the third document has no name. *)
Example scenario_example :
  (sc <- engine Log10.log10 scenario ["A"; "B"]%string;; compareAll sc)
  = Some [ ("A", "B", 0x1.ffffffffffffep-1);
           ("A", "Document2", 0);
           ("B", "Document2", 0) ]%string%float.
Proof. vm_compute. reflexivity. Qed.

(** Vectors that the extractor produces reach a similarity above 1 as
    well: the two copies in [copies]. *)
Example engine_above_one :
  (sc <- engine Log10.log10 copies [];; cosineSimilarity sc 0 1)
  = Some 0x1.0000000000001p+0%float.
Proof. vm_compute. reflexivity. Qed.

End Examples.

(* ================================================================== *)
(** * More about the extractor *)
(* ================================================================== *)

Module ExtractorFacts.
Import StdMap StdMapFacts FeatureExtractor ListFacts FeatureFacts.

(** X1.  The vocabulary the constructor builds is strictly increasing in
    the order of [std::string], so without duplicates, and holds exactly
    the words that occur in some document. *)
Theorem buildVocabulary_spec (docs : list (list string)) :
  StronglySorted key_lt (getVocabulary (make docs)) /\
  NoDup (getVocabulary (make docs)) /\
  forall word, In word (getVocabulary (make docs))
               <-> exists doc, In doc docs /\ In word doc.
Proof.
  unfold getVocabulary. cbn [vocabulary make].
  split; [apply buildVocabulary_sorted|]. split.
  - eapply StronglySorted_NoDup; [apply key_lt_irrefl|apply buildVocabulary_sorted].
  - intros word. apply buildVocabulary_In.
Qed.

Lemma keys_map_values {V W : Type} (f : string * V -> W) (m : StdMap.t V) :
  keys (map (fun e => (fst e, f e)) m) = keys m.
Proof. unfold keys. rewrite map_map. reflexivity. Qed.

(** X2.  The TF map of a document has an entry exactly for the terms that
    occur in it, and the value is the number of occurrences divided by the
    number of tokens; its keys are strictly increasing. *)
Theorem computeTF_spec (doc : list string) (term : string) :
  wf (computeTF doc) /\
  (In term doc <-> In term (keys (computeTF doc))) /\
  find term (computeTF doc)
  = match count_occ string_dec doc term with
    | O => None
    | S n => Some (to_double (Z.of_nat (S n))
                   / to_double (Z.of_nat (List.length doc)))%float
    end.
Proof.
  assert (F : find term (computeTF doc)
              = match count_occ string_dec doc term with
                | O => None
                | S n => Some (to_double (Z.of_nat (S n))
                               / to_double (Z.of_nat (List.length doc)))%float
                end).
  { rewrite computeTF_find, countTerms_find.
    now destruct (count_occ string_dec doc term). }
  split; [|split; [|exact F]].
  - unfold wf. rewrite computeTF_entries.
    rewrite (keys_map_values
               (fun e => (to_double (snd e)
                          / to_double (Z.of_nat (List.length doc)))%float)).
    apply countTerms_wf.
  - rewrite (count_occ_In string_dec). split.
    + intros Hc. destruct (find term (computeTF doc)) eqn:E.
      * destruct (in_dec string_dec term (keys (computeTF doc))) as [H|H]; [exact H|].
        apply find_None_iff in H. congruence.
      * rewrite F in E. destruct (count_occ string_dec doc term); [lia|discriminate].
    + intros Hin. destruct (count_occ string_dec doc term) eqn:E; [|lia].
      exfalso. revert Hin. apply find_None_iff. now rewrite F.
Qed.

Lemma documentsWith_bounds (term : string) (docs : list (list string)) :
  (documentsWith term docs <= List.length docs)%nat /\
  ((exists doc, In doc docs /\ In term doc) -> (1 <= documentsWith term docs)%nat).
Proof.
  unfold documentsWith. split; [apply filter_length_le|].
  intros [doc [Hd Ht]].
  assert (Hin : In doc (filter (fun doc => if in_dec string_dec term doc
                                           then true else false) docs)).
  { apply filter_In. split; [exact Hd|]. now destruct (in_dec string_dec term doc). }
  destruct (filter _ docs); [contradiction|simpl; lia].
Qed.

Section WithLog10.
Variable log10 : float -> float.

(** X3.  For an extractor built by the constructor, every vocabulary
    term occurs in at least one document, so the branch of [computeIDF] for
    a count of 0 is never taken: the stored IDF is
    [log10(totalDocs / docCount)] with [1 <= docCount <= totalDocs]. *)
Theorem computeIDF_constructed (docs : list (list string)) (term : string) :
  In term (getVocabulary (make docs)) ->
  1 <= docCount docs term <= Z.of_nat (List.length docs) /\
  find term (computeIDF log10 (make docs))
  = Some (log10 (to_double (Z.of_nat (List.length docs))
                 / to_double (docCount docs term))%float).
Proof.
  intros Hin. unfold getVocabulary in Hin. cbn [vocabulary make] in Hin.
  pose proof (proj1 (buildVocabulary_In docs term) Hin) as Hex.
  destruct (documentsWith_bounds term docs) as [Hle Hge]. specialize (Hge Hex).
  rewrite docCount_documentsWith. split; [lia|].
  rewrite computeIDF_find.
  - cbn [documents make]. unfold idfValue. rewrite docCount_documentsWith.
    destruct (Z.ltb_spec 0 (Z.of_nat (documentsWith term docs))); [reflexivity|lia].
  - cbn [documents make]. destruct Hex as [doc [Hd _]]. now destruct docs.
  - exact Hin.
Qed.

(** X4.  Calling [computeTFIDF] again changes nothing: the vectors are
    cleared first and rebuilt from the same documents and vocabulary. *)
Theorem computeTFIDF_again (docs : list (list string)) :
  (fe' <- computeTFIDF log10 (make docs);; computeTFIDF log10 fe')
  = computeTFIDF log10 (make docs).
Proof.
  rewrite computeTFIDF_make. cbn [bind].
  rewrite computeTFIDF_vectors; [reflexivity|].
  cbn [vocabulary]. apply buildVocabulary_sorted.
Qed.

(** X5.  [getTFIDFVector] never reads out of range: an index that is
    negative or not below the number of vectors gives the empty map.
    Before [computeTFIDF] is called every index gives the empty map; after
    it, a valid index gives the vector of that document, whose keys are the
    vocabulary. *)
Theorem getTFIDFVector_bounds (fe : FeatureExtractor.t) (docs : list (list string))
  (i : Z) :
  (exists vec, getTFIDFVector fe i = Some vec) /\
  (i < 0 \/ Z.of_nat (List.length (tfidfVectors fe)) <= i ->
   getTFIDFVector fe i = Some empty) /\
  getTFIDFVector (make docs) i = Some empty /\
  (Z.of_nat (List.length docs) <= INT_MAX -> 0 <= i < Z.of_nat (List.length docs) ->
   exists fe' doc vec,
     computeTFIDF log10 (make docs) = Some fe' /\
     nth_error docs (Z.to_nat i) = Some doc /\
     getTFIDFVector fe' i = Some vec /\
     vec = weights log10 docs (getVocabulary fe') doc /\
     keys vec = getVocabulary fe').
Proof.
  assert (Hout : forall fe0 : FeatureExtractor.t,
            i < 0 \/ Z.of_nat (List.length (tfidfVectors fe0)) <= i ->
            getTFIDFVector fe0 i = Some empty).
  { intros fe0 H. unfold getTFIDFVector.
    pose proof (static_cast_int_le (Z.of_nat (List.length (tfidfVectors fe0)))
                  (Zle_0_nat _)) as Hle.
    destruct (Z.geb_spec i 0); [|reflexivity].
    destruct (Z.ltb_spec i (static_cast_int
                              (Z.of_nat (List.length (tfidfVectors fe0)))));
      [lia|reflexivity]. }
  split; [|split; [apply Hout|split]].
  - unfold getTFIDFVector.
    pose proof (static_cast_int_le (Z.of_nat (List.length (tfidfVectors fe)))
                  (Zle_0_nat _)) as Hle.
    destruct (Z.geb_spec i 0); [|now eexists].
    destruct (Z.ltb_spec i (static_cast_int
                              (Z.of_nat (List.length (tfidfVectors fe)))));
      [|now eexists].
    apply CosineFacts.nth_error_valid. lia.
  - apply Hout. cbn [tfidfVectors make List.length]. lia.
  - intros Hfit Hi.
    destruct (CosineFacts.nth_error_valid docs i Hi) as [doc Hdoc].
    eexists. exists doc. eexists.
    split; [apply computeTFIDF_make|]. split; [exact Hdoc|].
    unfold getTFIDFVector, getVocabulary. cbn [tfidfVectors vocabulary].
    rewrite length_map, static_cast_int_fits by lia.
    destruct (Z.geb_spec i 0); [|lia].
    destruct (Z.ltb_spec i (Z.of_nat (List.length docs))); [|lia].
    cbn [andb]. split; [exact (map_nth_error _ _ _ Hdoc)|].
    split; [reflexivity|]. unfold weights. apply keys_map_entry.
Qed.

End WithLog10.

End ExtractorFacts.

(* ================================================================== *)
(** * More about the similarity checker *)
(* ================================================================== *)

Module CheckerFacts.
Import StdMap StdMapFacts SimilarityChecker ListFacts FloatFacts.
Import CosineFacts CompareAllFacts SymmetryFacts FeatureFacts EngineFacts.

(** X6.  A corpus of at most one document has no pair to compare: the
    pipeline's [compareAll] returns the empty sequence, whatever the
    names. *)
Theorem few_documents_no_results (log10 : float -> float)
  (docs : list (list string)) (names : list string) :
  (List.length docs <= 1)%nat ->
  (sc <- engine log10 docs names;; compareAll sc) = Some [].
Proof.
  intros H. rewrite engine_vectors. cbn [bind].
  destruct docs as [|d [|d' docs]]; [reflexivity|reflexivity|simpl in H; lia].
Qed.

Lemma dot_loop_none (a b : StdMap.t float) (r : float) :
  (forall k, In k (keys a) -> find k b = None) -> dot_loop a b r = r.
Proof.
  revert r. induction a as [|[k x] a IH]; intros r H; [reflexivity|].
  rewrite dot_loop_cons, (H k) by now left.
  apply IH. intros k' Hk'. apply H. now right.
Qed.

(** X7.  The dot product of two vectors without a common key is exactly
    0.0, whatever their weights (also NaN or infinite ones) and whichever
    of the two is iterated; in particular when one vector is empty. *)
Theorem dotProduct_disjoint (vec1 vec2 : StdMap.t float) :
  (forall k, In k (keys vec1) -> ~ In k (keys vec2)) ->
  dotProduct vec1 vec2 = 0%float.
Proof.
  intros H. rewrite dotProduct_dot_loop.
  destruct (size vec1 <? size vec2)%nat; apply dot_loop_none; intros k Hk;
    apply find_None_iff; [now apply H|].
  intros Hk1. exact (H k Hk1 Hk).
Qed.

(** X8.  A stored vector all of whose weights are zeros has similarity 0.0
    with every other index, in both orders, whatever the other vector is:
    its magnitude is zero and the guard answers before dividing. *)
Theorem zero_vector_similarity (sc : SimilarityChecker.t) (i j : Z)
  (vec : StdMap.t float) :
  numVectors sc <= INT_MAX ->
  0 <= i ->
  nth_error (tfidfVectors sc) (Z.to_nat i) = Some vec ->
  Forall (fun e => is_zero (snd e)) vec ->
  j <> i ->
  cosineSimilarity sc i j = Some 0%float /\
  cosineSimilarity sc j i = Some 0%float.
Proof.
  intros Hfit Hi Vi Hz Hne.
  assert (Mi : magnitude vec = 0%float) by now apply magnitude_zeros.
  assert (Hilt : i < numVectors sc).
  { unfold numVectors.
    assert (nth_error (tfidfVectors sc) (Z.to_nat i) <> None) as H by congruence.
    apply nth_error_Some in H. lia. }
  assert (Hout : j < 0 \/ numVectors sc <= j ->
                 cosineSimilarity sc i j = Some 0%float /\
                 cosineSimilarity sc j i = Some 0%float).
  { intros Hj. unfold cosineSimilarity. fold (numVectors sc).
    rewrite (index_check_rejects sc i j), (index_check_rejects sc j i) by lia.
    now split. }
  destruct (Z_lt_le_dec j 0); [apply Hout; lia|].
  destruct (Z_lt_le_dec j (numVectors sc)); [|apply Hout; lia].
  destruct (nth_error_valid (tfidfVectors sc) j) as [vj Vj];
    [unfold numVectors in *; lia|].
  split.
  - rewrite (cosineSimilarity_distinct sc i j vec vj Hfit ltac:(lia)
               ltac:(lia) ltac:(lia) Vi Vj).
    now rewrite Mi.
  - rewrite (cosineSimilarity_distinct sc j i vj vec Hfit ltac:(lia)
               ltac:(lia) ltac:(lia) Vj Vi).
    rewrite Mi. now rewrite orb_true_r.
Qed.

Lemma nameOf_label (sc : SimilarityChecker.t) (i : Z) :
  Z.of_nat (List.length (documentNames sc)) <= INT_MAX -> 0 <= i ->
  nameOf sc i = Some (label (documentNames sc) i).
Proof.
  intros Hfit Hi. unfold nameOf, label.
  rewrite static_cast_int_fits by lia.
  destruct (Z.ltb_spec i (Z.of_nat (List.length (documentNames sc)))) as [Hlt|Hge].
  - destruct (nth_error_valid (documentNames sc) i) as [name E]; [lia|].
    now rewrite E.
  - assert (E : nth_error (documentNames sc) (Z.to_nat i) = None)
      by (apply nth_error_None; lia).
    now rewrite E.
Qed.

(** X9.  [compareAll] labels every result with the names of its two
    documents: the stored name at the document's index, and the placeholder
    [Document<i>] when fewer names than vectors are stored. *)
Theorem compareAll_labels (sc : SimilarityChecker.t) :
  numVectors sc <= INT_MAX ->
  Z.of_nat (List.length (documentNames sc)) <= INT_MAX ->
  exists results,
    compareAll sc = Some results /\
    Forall2
      (fun p r =>
         fst (fst r) = label (documentNames sc) (fst p) /\
         snd (fst r) = label (documentNames sc) (snd p))
      (index_pairs (numVectors sc)) results.
Proof.
  intros Hfit Hnames. eexists. split; [now apply compareAll_entries|].
  apply Forall2_map_r. intros [i j] Hin. apply index_pairs_In in Hin.
  unfold entry. cbn [fst snd].
  rewrite !nameOf_label by (assumption || lia). now split.
Qed.

Lemma to_string_inj (i j : Z) : to_string i = to_string j -> i = j.
Proof.
  unfold to_string. intros H.
  assert (N : forall z, Z.to_int z <> Decimal.Pos Decimal.Nil /\
                        Z.to_int z <> Decimal.Neg Decimal.Nil).
  { intros [|p|p]; simpl; split; try discriminate; intros [= E];
      exact (Unsigned.to_uint_nonnil p E). }
  apply (f_equal NilZero.int_of_string) in H.
  rewrite !NilZero.isi in H by apply N.
  injection H as H. now apply DecimalZ.to_int_inj.
Qed.

(** X10.  The placeholder names of two different indices without a stored
    name are different. *)
Theorem placeholder_names_distinct (names : list string) (i j : Z) :
  Z.of_nat (List.length names) <= i -> Z.of_nat (List.length names) <= j ->
  i <> j ->
  label names i <> label names j.
Proof.
  intros Hi Hj Hne. unfold label.
  assert (Ei : nth_error names (Z.to_nat i) = None) by (apply nth_error_None; lia).
  assert (Ej : nth_error names (Z.to_nat j) = None) by (apply nth_error_None; lia).
  rewrite Ei, Ej. simpl. intros [= H]. now apply Hne, to_string_inj.
Qed.

End CheckerFacts.

(* ================================================================== *)
(** * The sign of a similarity *)
(* ================================================================== *)

Module SignFacts.
Import StdMap StdMapFacts SimilarityChecker SymmetryFacts.

Lemma not_negative_spec (x : float) :
  not_negative x <-> sf_not_negative (Prim2SF x).
Proof.
  unfold not_negative. rewrite ltb_spec. unfold SFltb.
  change (Prim2SF 0) with (S754_zero false).
  destruct (Prim2SF x) as [s|s| |s m e]; simpl; try tauto;
    destruct s; simpl; split; congruence.
Qed.

(** Rounding keeps the sign it is given. *)
Lemma round_sign (sx : bool) (mx ex : Z) (lx : location) :
  match binary_round_aux prec emax sx mx ex lx with
  | S754_nan => True
  | S754_zero s | S754_infinity s | S754_finite s _ _ => s = sx
  end.
Proof.
  unfold binary_round_aux.
  destruct (shr_fexp prec emax mx ex lx) as [mrs' e'].
  destruct (shr_fexp prec emax _ e' loc_Exact) as [mrs'' e''].
  destruct (shr_m mrs''); try exact I; try reflexivity.
  now destruct (_ <=? _).
Qed.

Lemma sign_clear_not_negative (x : float) : sign_clear x -> not_negative x.
Proof.
  rewrite not_negative_spec. unfold sign_clear.
  now destruct (Prim2SF x) as [s|s| |s m e].
Qed.

Lemma round_sign_clear (mx ex : Z) (lx : location) (x : float) :
  Prim2SF x = binary_round_aux prec emax false mx ex lx -> sign_clear x.
Proof.
  intros E. unfold sign_clear. rewrite E.
  pose proof (round_sign false mx ex lx) as H.
  now destruct (binary_round_aux prec emax false mx ex lx).
Qed.

(** A product of two doubles that are not negative is not negative. *)
Lemma mul_not_negative (x y : float) :
  not_negative x -> not_negative y -> not_negative (x * y)%float.
Proof.
  rewrite !not_negative_spec, mul_spec. unfold SF64mul, SFmul.
  destruct (Prim2SF x) as [sx|sx| |sx mx ex], (Prim2SF y) as [sy|sy| |sy my ey];
    simpl; try tauto; try (intros -> ->; reflexivity).
  intros -> ->. simpl.
  pose proof (round_sign false (Z.pos (mx * my)) (ex + ey) loc_Exact) as H.
  now destruct (binary_round_aux prec emax false _ _ _).
Qed.

(** A square has its sign bit clear, whatever the double. *)
Lemma square_sign_clear (x : float) : sign_clear (x * x)%float.
Proof.
  unfold sign_clear. rewrite mul_spec. unfold SF64mul, SFmul.
  destruct (Prim2SF x) as [s|s| |s m e]; simpl; try exact I;
    try apply xorb_nilpotent.
  rewrite xorb_nilpotent.
  pose proof (round_sign false (Z.pos (m * m)) (e + e) loc_Exact) as H.
  now destruct (binary_round_aux prec emax false _ _ _).
Qed.

Lemma mul_sign_clear (x y : float) :
  sign_clear x -> sign_clear y -> sign_clear (x * y)%float.
Proof.
  unfold sign_clear. rewrite mul_spec. unfold SF64mul, SFmul.
  destruct (Prim2SF x) as [sx|sx| |sx mx ex], (Prim2SF y) as [sy|sy| |sy my ey];
    simpl; try tauto; try (intros -> ->; reflexivity).
  intros -> ->. simpl.
  pose proof (round_sign false (Z.pos (mx * my)) (ex + ey) loc_Exact) as H.
  now destruct (binary_round_aux prec emax false _ _ _).
Qed.

(** Adding a double that is not negative (it may be [-0]) to one with a
    clear sign bit leaves the sign bit clear. *)
Lemma add_sign_clear (r p : float) :
  sign_clear r -> not_negative p -> sign_clear (r + p)%float.
Proof.
  rewrite not_negative_spec. unfold sign_clear. rewrite add_spec.
  unfold SF64add, SFadd.
  destruct (Prim2SF r) as [sx|sx| |sx mx ex], (Prim2SF p) as [sy|sy| |sy my ey];
    simpl; try tauto; try (intros -> ->; reflexivity);
    try (intros -> _; now destruct sy).
  intros -> ->. simpl. unfold binary_normalize.
  destruct (shl_align mx ex (Z.min ex ey)) as [m1 e1].
  destruct (shl_align my ey (Z.min ex ey)) as [m2 e2]. simpl.
  unfold binary_round.
  destruct (shl_align _ _ _) as [mz ez].
  pose proof (round_sign false (Z.pos mz) ez loc_Exact) as H.
  now destruct (binary_round_aux prec emax false _ _ _).
Qed.

Lemma div_sign_clear (x y : float) :
  sign_clear x -> sign_clear y -> sign_clear (x / y)%float.
Proof.
  unfold sign_clear. rewrite div_spec. unfold SF64div, SFdiv.
  destruct (Prim2SF x) as [sx|sx| |sx mx ex], (Prim2SF y) as [sy|sy| |sy my ey];
    simpl; try tauto; try (intros -> ->; reflexivity).
  intros -> ->.
  destruct (SFdiv_core_binary prec emax (Z.pos mx) ex (Z.pos my) ey) as [[mz ez] lz].
  simpl.
  pose proof (round_sign false mz ez lz) as H.
  now destruct (binary_round_aux prec emax false _ _ _).
Qed.

Lemma sqrt_sign_clear (x : float) : sign_clear x -> sign_clear (PrimFloat.sqrt x).
Proof.
  unfold sign_clear. rewrite sqrt_spec. unfold SF64sqrt, SFsqrt.
  destruct (Prim2SF x) as [s|s| |s m e]; simpl; try tauto.
  - intros ->. reflexivity.
  - intros ->.
    destruct (SFsqrt_core_binary prec emax (Z.pos m) e) as [[mz ez] lz].
    pose proof (round_sign false mz ez lz) as H.
    now destruct (binary_round_aux prec emax false _ _ _).
Qed.

Lemma find_Some_In {V : Type} (k : string) (v : V) (m : StdMap.t V) :
  find k m = Some v -> In (k, v) m.
Proof.
  induction m as [|[k' v'] m IH]; simpl; [discriminate|].
  destruct (String.eqb_spec k k') as [->|_].
  - intros [= ->]. now left.
  - intros H. right. auto.
Qed.

Lemma dot_loop_sign_clear (a b : StdMap.t float) (r : float) :
  Forall (fun e => not_negative (snd e)) a ->
  Forall (fun e => not_negative (snd e)) b ->
  sign_clear r -> sign_clear (dot_loop a b r).
Proof.
  intros Ha Hb. revert r. induction Ha as [|[k x] a Hx _ IH]; intros r Hr;
    [exact Hr|].
  rewrite dot_loop_cons. apply IH.
  destruct (find k b) as [y|] eqn:E; [|exact Hr].
  apply add_sign_clear; [exact Hr|]. apply mul_not_negative; [exact Hx|].
  rewrite Forall_forall in Hb. exact (Hb _ (find_Some_In _ _ _ E)).
Qed.

(** The magnitude of any vector has its sign bit clear. *)
Lemma magnitude_sign_clear (vec : StdMap.t float) : sign_clear (magnitude vec).
Proof.
  unfold magnitude. apply sqrt_sign_clear.
  assert (H : forall r, sign_clear r ->
            sign_clear (fold_left (fun sum '(_, value) => (sum + value * value)%float)
                          vec r)).
  { induction vec as [|[k x] vec IH]; intros r Hr; [exact Hr|].
    cbn [fold_left]. apply IH. apply add_sign_clear; [exact Hr|].
    apply sign_clear_not_negative, square_sign_clear. }
  apply H. reflexivity.
Qed.

(** X11.  When no stored weight is below zero, no similarity is: whatever
    [cosineSimilarity] returns, for any two indices, is 0.0 or above
    (or NaN), never a negative number. *)
Theorem cosineSimilarity_not_negative (sc : SimilarityChecker.t) (i j : Z)
  (x : float) :
  Forall (Forall (fun e => not_negative (snd e))) (tfidfVectors sc) ->
  cosineSimilarity sc i j = Some x ->
  not_negative x.
Proof.
  intros Hw. unfold cosineSimilarity.
  destruct (_ || _); [intros [= <-]; reflexivity|].
  destruct (i =? j); [intros [= <-]; reflexivity|].
  destruct (nth_error (tfidfVectors sc) (Z.to_nat i)) as [vec1|] eqn:E1;
    [|discriminate].
  destruct (nth_error (tfidfVectors sc) (Z.to_nat j)) as [vec2|] eqn:E2;
    [|discriminate].
  cbn [bind].
  destruct (_ || _); [intros [= <-]; reflexivity|]. intros [= <-].
  rewrite Forall_forall in Hw.
  pose proof (Hw _ (nth_error_In _ _ E1)) as H1.
  pose proof (Hw _ (nth_error_In _ _ E2)) as H2.
  apply sign_clear_not_negative, div_sign_clear.
  - rewrite dotProduct_dot_loop.
    destruct (size vec1 <? size vec2)%nat;
      now apply dot_loop_sign_clear.
  - apply mul_sign_clear; apply magnitude_sign_clear.
Qed.

End SignFacts.

(* ================================================================== *)
(** * More about the report *)
(* ================================================================== *)

Module ReportLineFacts.
Import ReportWriter ReportFacts.

Lemma count_char_app (c : ascii) (a b : string) :
  count_char c (a ++ b) = (count_char c a + count_char c b)%nat.
Proof. induction a as [|ch a IH]; simpl; [reflexivity|]. rewrite IH. lia. Qed.

Section WithStream.
Variable put_fixed : nat -> float -> string.

(** X12.  The report has one line per result after the header line, and
    every row has exactly two quote characters, provided that no document
    name contains a line break or a quote (names are written as they are,
    without escaping) and that the stream prints a number without them. *)
Theorem writeCSV_lines (w : ReportWriter.t)
  (results : list (string * string * float)) :
  (forall x, count_char "010" (put_fixed 2 x) = O /\
             count_char "034" (put_fixed 2 x) = O) ->
  Forall (fun r => count_char "010" (fst (fst r)) = O /\
                   count_char "010" (snd (fst r)) = O /\
                   count_char "034" (fst (fst r)) = O /\
                   count_char "034" (snd (fst r)) = O) results ->
  exists content,
    file (writeCSV put_fixed w true results) = Some content /\
    count_char "010" content = S (List.length results) /\
    count_char "034" content = (2 * List.length results)%nat.
Proof.
  intros Hfmt Hnames. eexists. split.
  { unfold writeCSV. cbn [negb file]. now rewrite fold_rows. }
  rewrite !count_char_app.
  assert (Hrows : count_char "010" (lines (map (row put_fixed w) results))
                  = List.length results /\
                  count_char "034" (lines (map (row put_fixed w) results))
                  = (2 * List.length results)%nat).
  { induction Hnames as [|[[a b] x] results (Ha & Hb & Ha' & Hb') _ IH];
      [now split|].
    cbn [map lines fold_right]. fold (lines (map (row put_fixed w) results)).
    rewrite !count_char_app. destruct IH as [IH1 IH2]. rewrite IH1, IH2.
    destruct (Hfmt (x * 100)%float) as [F1 F2].
    cbn [fst snd] in Ha, Hb, Ha', Hb'.
    unfold row. rewrite !count_char_app, Ha, Hb, Ha', Hb', F1, F2.
    destruct (PrimFloat.ltb (threshold w) x); cbn; split; lia. }
  destruct Hrows as [-> ->]. split; reflexivity.
Qed.

End WithStream.

End ReportLineFacts.

(* ================================================================== *)
(** * TextCleaner: what the tokens look like *)
(* ================================================================== *)

Module TextCleanerFacts.
Import CType TextCleaner ReportFacts.

(** ** Characters *)

Ltac by_cases_on c := destruct c as [[] [] [] [] [] [] [] []]; reflexivity.

Lemma tolower_idempotent (c : ascii) : tolower (tolower c) = tolower c.
Proof. by_cases_on c. Qed.

Lemma isalnum_tolower (c : ascii) : isalnum (tolower c) = isalnum c.
Proof. by_cases_on c. Qed.

Lemma isspace_tolower (c : ascii) : isspace (tolower c) = isspace c.
Proof. by_cases_on c. Qed.

Lemma alnum_not_space (c : ascii) : isalnum c && isspace c = false.
Proof. by_cases_on c. Qed.

Lemma lower_alnum_fixed (c : ascii) :
  lower_alnum c = true ->
  tolower c = c /\ isalnum c = true /\ isspace c = false.
Proof.
  destruct c as [[] [] [] [] [] [] [] []]; intros H; try discriminate H;
    repeat split.
Qed.

Lemma tolower_alnum_lower (c : ascii) :
  isalnum (tolower c) = lower_alnum (tolower c).
Proof. by_cases_on c. Qed.

(** ** Strings *)

Lemma transform_app (f : ascii -> ascii) (a b : string) :
  transform f (a ++ b) = (transform f a ++ transform f b)%string.
Proof. induction a as [|c a IH]; simpl; congruence. Qed.

Lemma length_append (a b : string) :
  String.length (a ++ b) = (String.length a + String.length b)%nat.
Proof. induction a as [|c a IH]; simpl; congruence. Qed.

Lemma transform_length (f : ascii -> ascii) (s : string) :
  String.length (transform f s) = String.length s.
Proof. induction s as [|c s IH]; simpl; congruence. Qed.

Lemma transform_transform (f g : ascii -> ascii) (s : string) :
  transform f (transform g s) = transform (fun c => f (g c)) s.
Proof. induction s as [|c s IH]; simpl; congruence. Qed.

Lemma transform_ext (f g : ascii -> ascii) (s : string) :
  (forall c, f c = g c) -> transform f s = transform g s.
Proof. intros H. induction s as [|c s IH]; simpl; congruence. Qed.

Lemma transform_fixed (f : ascii -> ascii) (P : ascii -> bool) (s : string) :
  (forall c, P c = true -> f c = c) -> all_chars P s = true -> transform f s = s.
Proof.
  intros H. induction s as [|c s IH]; simpl; [reflexivity|].
  intros E. apply andb_prop in E as [E1 E2]. now rewrite H, IH.
Qed.

Lemma all_chars_app (P : ascii -> bool) (a b : string) :
  all_chars P (a ++ b) = all_chars P a && all_chars P b.
Proof.
  induction a as [|c a IH]; simpl; [reflexivity|]. now rewrite IH, andb_assoc.
Qed.

Lemma all_chars_transform (P : ascii -> bool) (f : ascii -> ascii) (s : string) :
  (forall c, P (f c) = true) -> all_chars P (transform f s) = true.
Proof. intros H. induction s as [|c s IH]; simpl; [reflexivity|]. now rewrite H. Qed.

Lemma all_chars_impl (P Q : ascii -> bool) (s : string) :
  (forall c, P c = true -> Q c = true) ->
  all_chars P s = true -> all_chars Q s = true.
Proof.
  intros H. induction s as [|c s IH]; simpl; [reflexivity|].
  intros E. apply andb_prop in E as [E1 E2]. now rewrite (H _ E1), IH.
Qed.

(** ** The words of a text *)

Lemma split_words_skip (stream : string) :
  split_words (skip_spaces stream) EmptyString = split_words stream EmptyString.
Proof.
  induction stream as [|c rest IH]; [reflexivity|].
  simpl. destruct (isspace c) eqn:E; [exact IH|].
  simpl. now rewrite E.
Qed.

Lemma skip_spaces_length (stream : string) :
  (String.length (skip_spaces stream) <= String.length stream)%nat.
Proof.
  induction stream as [|c rest IH]; simpl; [lia|].
  destruct (isspace c); simpl; lia.
Qed.

Lemma skip_spaces_head (stream : string) (c : ascii) (rest : string) :
  skip_spaces stream = String c rest -> isspace c = false.
Proof.
  induction stream as [|c' rest' IH]; simpl; [discriminate|].
  destruct (isspace c') eqn:E; [exact IH|]. now intros [= <- <-].
Qed.

(** What [read_word] takes is a word, and the words of the stream are that
    word followed by the words of the rest. *)
Lemma read_word_spec (stream cur : string) :
  let '(word, rest) := read_word stream in
  stream = (word ++ rest)%string /\
  all_chars (fun c => negb (isspace c)) word = true /\
  split_words stream cur = flush (cur ++ word) ++ split_words rest EmptyString.
Proof.
  revert cur. induction stream as [|c rest IH]; intros cur.
  - simpl. rewrite append_nil_r, app_nil_r. auto.
  - simpl. destruct (isspace c) eqn:E.
    + simpl. rewrite E, append_nil_r. auto.
    + specialize (IH (cur ++ String c EmptyString)%string).
      destruct (read_word rest) as [word rest'].
      destruct IH as (-> & Hw & Hs). simpl. rewrite E. simpl.
      split; [reflexivity|]. split; [exact Hw|].
      rewrite Hs. now rewrite append_assoc.
Qed.

Lemma tokenize_loop_words (n : nat) (stream : string) (tokens : list string) :
  (String.length stream <= n)%nat ->
  tokenize_loop n stream tokens = tokens ++ split_words stream EmptyString.
Proof.
  revert stream tokens. induction n as [|n IH]; intros stream tokens Hlen.
  - destruct stream; [simpl; now rewrite app_nil_r|simpl in Hlen; lia].
  - cbn [tokenize_loop]. unfold extract.
    rewrite <- (split_words_skip stream).
    pose proof (skip_spaces_length stream) as Hskip.
    destruct (skip_spaces stream) as [|c rest] eqn:E.
    + simpl. now rewrite app_nil_r.
    + pose proof (skip_spaces_head _ _ _ E) as Hc.
      pose proof (read_word_spec (String c rest) EmptyString) as H.
      destruct (read_word (String c rest)) as [word rest'] eqn:R.
      destruct H as (Hcat & Hw & Hs). rewrite Hs. simpl (EmptyString ++ word)%string.
      assert (Hne : word <> EmptyString).
      { intros ->. simpl in R. rewrite Hc in R.
        destruct (read_word rest); discriminate. }
      assert (Hl : (String.length rest' <= n)%nat).
      { apply (f_equal String.length) in Hcat.
        rewrite length_append in Hcat.
        destruct word; [contradiction|simpl in *; lia]. }
      destruct (String.eqb_spec word EmptyString); [contradiction|].
      cbn [negb]. rewrite IH by exact Hl.
      destruct word; [contradiction|]. simpl. now rewrite <- app_assoc.
Qed.

Lemma tokenize_words (text : string) :
  tokenize text = split_words text EmptyString.
Proof. unfold tokenize. now rewrite tokenize_loop_words. Qed.

Lemma split_words_tokens (Q : ascii -> bool) (text cur : string) :
  all_chars (fun c => isspace c || Q c) text = true ->
  all_chars Q cur = true ->
  Forall (fun w => w <> EmptyString /\ all_chars Q w = true) (split_words text cur).
Proof.
  assert (Hflush : forall cur0, all_chars Q cur0 = true ->
            Forall (fun w => w <> EmptyString /\ all_chars Q w = true) (flush cur0)).
  { intros [|c cur0] H; simpl; repeat constructor; [discriminate|exact H]. }
  revert cur. induction text as [|c rest IH]; intros cur Ht Hc; simpl.
  - now apply Hflush.
  - simpl in Ht. apply andb_prop in Ht as [Hc1 Hrest].
    destruct (isspace c) eqn:E.
    + apply Forall_app. split; [now apply Hflush|now apply IH].
    + apply IH; [exact Hrest|].
      rewrite all_chars_app, Hc. simpl. simpl in Hc1. now rewrite Hc1.
Qed.

(** A character that is whitespace ends the word being read. *)
Lemma split_words_app_space (a b cur : string) (sp : ascii) :
  isspace sp = true ->
  split_words (a ++ String sp b) cur
  = split_words a cur ++ split_words b EmptyString.
Proof.
  intros Hsp. revert cur. induction a as [|c a IH]; intros cur; simpl.
  - now rewrite Hsp.
  - destruct (isspace c); [|apply IH]. now rewrite IH, app_assoc.
Qed.

Lemma split_words_word (word cur : string) :
  all_chars (fun c => negb (isspace c)) word = true ->
  split_words word cur = flush (cur ++ word).
Proof.
  revert cur. induction word as [|c word IH]; intros cur H; simpl.
  - now rewrite append_nil_r.
  - simpl in H. apply andb_prop in H as [Hc Hw].
    apply negb_true_iff in Hc. rewrite Hc, IH by exact Hw.
    now rewrite append_assoc.
Qed.

Lemma isspace_space : isspace " " = true.
Proof. reflexivity. Qed.

Lemma removeStopWords_filter (tc : TextCleaner.t) (tokens : list string) :
  removeStopWords tc tokens = filter (kept tc) tokens.
Proof.
  unfold removeStopWords.
  assert (H : forall acc,
            fold_left
              (fun filtered token =>
                 if negb (contains (stopWords tc) token)
                    && negb (String.eqb token EmptyString)
                 then filtered ++ [token] else filtered) tokens acc
            = acc ++ filter (kept tc) tokens).
  { induction tokens as [|t tokens IH]; intros acc; simpl.
    - now rewrite app_nil_r.
    - rewrite IH. unfold kept at 2.
      destruct (negb (contains (stopWords tc) t) && negb (String.eqb t EmptyString));
        [now rewrite <- app_assoc|reflexivity]. }
  apply (H []).
Qed.

Lemma removePunctuation_keep (text : string) :
  removePunctuation text = transform keep_or_space text.
Proof. reflexivity. Qed.

Lemma cleaned_transform (text : string) :
  removePunctuation (toLower text)
  = transform (fun c => keep_or_space (tolower c)) text.
Proof.
  unfold toLower. now rewrite removePunctuation_keep, transform_transform.
Qed.

(** The text that [preprocess] splits into words. *)
Lemma cleaned_chars (text : string) :
  all_chars (fun c => isspace c || lower_alnum c)
    (removePunctuation (toLower text)) = true.
Proof.
  unfold toLower. rewrite removePunctuation_keep, transform_transform.
  apply all_chars_transform. intros c. unfold keep_or_space.
  by_cases_on c.
Qed.

Lemma preprocess_filter (tc : TextCleaner.t) (text : string) :
  preprocess tc text
  = filter (kept tc)
      (split_words (removePunctuation (toLower text)) EmptyString).
Proof. unfold preprocess. now rewrite removeStopWords_filter, tokenize_words. Qed.

Lemma preprocess_kept (tc : TextCleaner.t) (text token : string) :
  In token (preprocess tc text) ->
  token <> EmptyString /\
  all_chars lower_alnum token = true /\
  kept tc token = true.
Proof.
  rewrite preprocess_filter. intros Hin. apply filter_In in Hin as [Hin Hk].
  pose proof (split_words_tokens lower_alnum _ EmptyString
                (cleaned_chars text) eq_refl) as H.
  rewrite Forall_forall in H. destruct (H _ Hin) as [Hne Hall].
  split; [exact Hne|]. split; [exact Hall|exact Hk].
Qed.

(** X13.  Every token that [preprocess] returns is non-empty, consists of
    lowercase letters and digits only (no capital, punctuation mark, space
    or byte outside ASCII is left), and is not one of the stop words. *)
Theorem preprocess_tokens (tc : TextCleaner.t) (text token : string) :
  In token (preprocess tc text) ->
  token <> EmptyString /\
  all_chars lower_alnum token = true /\
  contains (stopWords tc) token = false.
Proof.
  intros Hin. destruct (preprocess_kept tc text token Hin) as (Hne & Hall & Hk).
  split; [exact Hne|]. split; [exact Hall|].
  unfold kept in Hk. apply andb_prop in Hk as [Hk _].
  now apply negb_true_iff in Hk.
Qed.

Lemma split_words_spaced (tokens : list string) :
  Forall (fun w => w <> EmptyString /\
                   all_chars (fun c => negb (isspace c)) w = true) tokens ->
  split_words (spaced tokens) EmptyString = tokens.
Proof.
  induction 1 as [|w tokens [Hne Hw] _ IH]; [reflexivity|].
  cbn [spaced fold_right]. fold (spaced tokens).
  change (w ++ " " ++ spaced tokens)%string
    with (w ++ String " " (spaced tokens))%string.
  rewrite (split_words_app_space w (spaced tokens) EmptyString " " isspace_space).
  rewrite IH, (split_words_word w EmptyString Hw). simpl.
  now destruct w.
Qed.

(** X14.  Tokens written out with a space after each are read back by
    [tokenize] as they were, when none of them is empty or contains
    whitespace. *)
Theorem tokenize_spaced (tokens : list string) :
  Forall (fun w => w <> EmptyString /\
                   all_chars (fun c => negb (isspace c)) w = true) tokens ->
  tokenize (spaced tokens) = tokens.
Proof. intros H. rewrite tokenize_words. now apply split_words_spaced. Qed.

(** X15.  Preprocessing two texts joined by a character that is no letter
    or digit (a space, a line break, a punctuation mark) gives the tokens of
    the first followed by the tokens of the second. *)
Theorem preprocess_append (tc : TextCleaner.t) (a b : string) (c : ascii) :
  isalnum c = false ->
  preprocess tc (a ++ String c b) = preprocess tc a ++ preprocess tc b.
Proof.
  intros Hc. rewrite !preprocess_filter, !cleaned_transform, transform_app.
  cbn [transform].
  rewrite split_words_app_space; [apply filter_app|].
  revert Hc. unfold keep_or_space. destruct c as [[] [] [] [] [] [] [] []];
    intros H; try discriminate H; reflexivity.
Qed.

(** X16.  Lowercasing and removing punctuation can be done in either
    order, each of them changes nothing when applied a second time, and
    neither changes the length of the text. *)
Theorem toLower_removePunctuation (text : string) :
  removePunctuation (toLower text) = toLower (removePunctuation text) /\
  toLower (toLower text) = toLower text /\
  removePunctuation (removePunctuation text) = removePunctuation text /\
  String.length (removePunctuation (toLower text)) = String.length text.
Proof.
  split; [|split; [|split]].
  - rewrite cleaned_transform. unfold toLower.
    rewrite removePunctuation_keep.
    rewrite (transform_transform tolower keep_or_space text).
    apply transform_ext. intros c. unfold keep_or_space. by_cases_on c.
  - unfold toLower. rewrite (transform_transform tolower tolower text).
    apply transform_ext, tolower_idempotent.
  - change (transform keep_or_space (transform keep_or_space text)
            = transform keep_or_space text).
    rewrite (transform_transform keep_or_space keep_or_space text).
    apply transform_ext. intros c. unfold keep_or_space. by_cases_on c.
  - now rewrite cleaned_transform, transform_length.
Qed.

Lemma filter_all {A : Type} (f : A -> bool) (l : list A) :
  Forall (fun x => f x = true) l -> filter f l = l.
Proof.
  induction 1 as [|x l Hx _ IH]; [reflexivity|]. cbn [filter]. now rewrite Hx, IH.
Qed.

(** X17.  Preprocessing is idempotent: the tokens of a text, written out
    with spaces and preprocessed again, are the same tokens. *)
Theorem preprocess_idempotent (tc : TextCleaner.t) (text : string) :
  preprocess tc (spaced (preprocess tc text)) = preprocess tc text.
Proof.
  assert (Htok : Forall (fun w => w <> EmptyString /\
                                  all_chars lower_alnum w = true /\
                                  kept tc w = true) (preprocess tc text)).
  { rewrite Forall_forall. intros w Hw.
    exact (preprocess_kept tc text w Hw). }
  set (tokens := preprocess tc text) in *. clearbody tokens.
  assert (Hchars : all_chars (fun c => isspace c || lower_alnum c) (spaced tokens)
                   = true).
  { induction Htok as [|w tokens (_ & Hall & _) _ IH]; [reflexivity|].
    cbn [spaced fold_right]. fold (spaced tokens).
    rewrite all_chars_app. simpl. rewrite IH, andb_true_r.
    eapply all_chars_impl; [|exact Hall]. intros c ->. apply orb_true_r. }
  assert (Hkeep : filter (kept tc) tokens = tokens).
  { apply filter_all. eapply Forall_impl; [|exact Htok].
    now intros w (_ & _ & Hk). }
  rewrite preprocess_filter, cleaned_transform.
  rewrite (transform_fixed _ (fun c => isspace c || lower_alnum c));
    [|intros c; unfold keep_or_space; destruct c as [[] [] [] [] [] [] [] []];
      intros H; try discriminate H; reflexivity|exact Hchars].
  rewrite split_words_spaced.
  - exact Hkeep.
  - eapply Forall_impl; [|exact Htok]. intros w (Hne & Hall & _).
    split; [exact Hne|]. eapply all_chars_impl; [|exact Hall].
    intros c Hc. now destruct (lower_alnum_fixed c Hc) as (_ & _ & ->).
Qed.

(** X18.  A text without a letter or digit (the empty text, or one of
    spaces and punctuation only) has no tokens. *)
Theorem preprocess_no_alnum (tc : TextCleaner.t) (text : string) :
  all_chars (fun c => negb (isalnum c)) text = true ->
  preprocess tc text = [].
Proof.
  intros H. rewrite preprocess_filter.
  assert (E : split_words (removePunctuation (toLower text)) EmptyString = []).
  { rewrite cleaned_transform.
    induction text as [|c text IH]; [reflexivity|].
    simpl in H. apply andb_prop in H as [Hc Ht]. cbn [transform split_words].
    assert (Hs : isspace (keep_or_space (tolower c)) = true).
    { revert Hc. unfold keep_or_space. destruct c as [[] [] [] [] [] [] [] []];
        intros Hc; try discriminate Hc; reflexivity. }
    rewrite Hs. simpl. now apply IH. }
  now rewrite E.
Qed.

(** X19.  [removeStopWords] keeps exactly the tokens that are not empty
    and not stop words, in their order and as often as they occur; applying
    it again changes nothing, and it never returns more tokens than it was
    given. *)
Theorem removeStopWords_spec (tc : TextCleaner.t) (tokens : list string) :
  removeStopWords tc tokens = filter (kept tc) tokens /\
  (forall token, In token (removeStopWords tc tokens)
                 <-> In token tokens /\ token <> EmptyString
                     /\ contains (stopWords tc) token = false) /\
  removeStopWords tc (removeStopWords tc tokens) = removeStopWords tc tokens /\
  (List.length (removeStopWords tc tokens) <= List.length tokens)%nat.
Proof.
  rewrite !removeStopWords_filter. split; [reflexivity|]. split; [|split].
  - intros token. rewrite filter_In. unfold kept.
    rewrite andb_true_iff, !negb_true_iff.
    destruct (String.eqb_spec token EmptyString); intuition congruence.
  - induction tokens as [|t tokens IH]; [reflexivity|]. simpl.
    destruct (kept tc t) eqn:E; [|exact IH]. simpl. now rewrite E, IH.
  - apply filter_length_le.
Qed.

End TextCleanerFacts.

(* ================================================================== *)
(** * Strings: positions and parts *)
(* ================================================================== *)

Module StringFacts.
Import StdString ReportFacts TextCleanerFacts.

Lemma find_last_of_from_spec (chars s : string) (pos found : Z) :
  find_last_of_from chars s pos found
  = match last_index chars s with
    | Some k => pos + Z.of_nat k
    | None => found
    end.
Proof.
  revert pos found. induction s as [|c rest IH]; intros pos found; [reflexivity|].
  cbn [find_last_of_from last_index]. rewrite IH.
  destruct (last_index chars rest) as [k|]; [lia|].
  destruct (char_in c chars); [lia|reflexivity].
Qed.

Lemma find_last_of_spec (chars s : string) :
  find_last_of chars s
  = match last_index chars s with
    | Some k => Z.of_nat k
    | None => npos
    end.
Proof. unfold find_last_of. now rewrite find_last_of_from_spec. Qed.

Lemma last_index_lt (chars s : string) (k : nat) :
  last_index chars s = Some k -> (k < String.length s)%nat.
Proof.
  revert k. induction s as [|c rest IH]; intros k; simpl; [discriminate|].
  destruct (last_index chars rest) as [k'|].
  - intros [= <-]. specialize (IH k' eq_refl). lia.
  - destruct (char_in c chars); [intros [= <-]; lia|discriminate].
Qed.

Lemma last_index_app (chars a b : string) :
  last_index chars (a ++ b)
  = match last_index chars b with
    | Some k => Some (String.length a + k)%nat
    | None => last_index chars a
    end.
Proof.
  induction a as [|c a IH]; simpl.
  - now destruct (last_index chars b).
  - rewrite IH. now destruct (last_index chars b).
Qed.


Lemma last_index_count (c : ascii) (s : string) :
  last_index (String c EmptyString) s = None <-> count_char c s = O.
Proof.
  induction s as [|c' rest IH]; simpl; [tauto|].
  rewrite Bool.orb_false_r, (Ascii.eqb_sym c' c).
  destruct (last_index (String c EmptyString) rest) as [k|].
  - split; [discriminate|]. intros H.
    assert (count_char c rest = O) by lia. apply IH in H0. discriminate.
  - destruct (Ascii.eqb c c'); simpl; [split; [discriminate|lia]|]. tauto.
Qed.

Lemma drop_app (a b : string) (n : nat) :
  drop (String.length a + n) (a ++ b) = drop n b.
Proof. induction a as [|c a IH]; simpl; [reflexivity|exact IH]. Qed.

(** What [drop] leaves is the end of the text. *)
Lemma drop_suffix (n : nat) (s : string) :
  (n <= String.length s)%nat ->
  exists prefix, s = (prefix ++ drop n s)%string /\ String.length prefix = n.
Proof.
  revert s. induction n as [|n IH]; intros s Hn.
  - exists EmptyString. now split.
  - destruct s as [|c s]; [simpl in Hn; lia|].
    destruct (IH s) as [prefix [E L]]; [simpl in Hn; lia|].
    exists (String c prefix). simpl. split; [now rewrite <- E|now rewrite L].
Qed.

Lemma size_add_small (a b : Z) : 0 <= a + b < 2 ^ 64 -> size_add a b = a + b.
Proof. intros H. unfold size_add. now apply Z.mod_small. Qed.



(** The text after the last position found is within the text. *)
Lemma substr_after (chars s : string) (k : nat) :
  last_index chars s = Some k ->
  size s < npos ->
  substr s (size_add (Z.of_nat k) 1) = Some (drop (S k) s).
Proof.
  intros E Hs. pose proof (last_index_lt _ _ _ E) as Hk.
  unfold size, npos in Hs.
  rewrite size_add_small by lia. unfold substr, size.
  destruct (Z.gtb_spec (Z.of_nat k + 1) (Z.of_nat (String.length s))); [lia|].
  do 2 f_equal. lia.
Qed.

(** [substr] after a position found does not throw. *)
Lemma substr_after_total (chars s : string) (k : nat) :
  last_index chars s = Some k ->
  exists rest, substr s (size_add (Z.of_nat k) 1) = Some rest.
Proof.
  intros E. pose proof (last_index_lt _ _ _ E) as Hk. unfold substr, size_add, size.
  pose proof (Z.mod_le (Z.of_nat k + 1) (2 ^ 64) ltac:(lia) ltac:(lia)).
  destruct (Z.gtb_spec ((Z.of_nat k + 1) mod 2 ^ 64) (Z.of_nat (String.length s)));
    [lia|now eexists].
Qed.


End StringFacts.

(* ================================================================== *)
(** * FileReader: paths, extensions and directories *)
(* ================================================================== *)

Module FileReaderFacts.
Import StdString FileReader StringFacts ListFacts ReportFacts TextCleanerFacts.


Lemma extension_spec (fileName : string) :
  size fileName < npos ->
  extension fileName
  = Some (transform CType.tolower
            (match last_index "." fileName with
             | Some k => drop (S k) fileName
             | None => fileName
             end)).
Proof.
  intros Hs. unfold extension. rewrite find_last_of_spec.
  destruct (last_index "." fileName) as [k|] eqn:E.
  - now rewrite (substr_after _ _ _ E Hs).
  - unfold size_add, npos. change ((2 ^ 64 - 1 + 1) mod 2 ^ 64) with 0.
    unfold substr, size.
    destruct (Z.gtb_spec 0 (Z.of_nat (String.length fileName))); [lia|reflexivity].
Qed.

(** [substr] does not throw in [extension], whatever the name. *)
Lemma extension_total (fileName : string) :
  exists ext, extension fileName = Some ext.
Proof.
  unfold extension. rewrite find_last_of_spec.
  assert (H : size_add
                (match last_index "." fileName with
                 | Some k => Z.of_nat k
                 | None => npos
                 end) 1 <= size fileName).
  { destruct (last_index "." fileName) as [k|] eqn:E.
    - pose proof (last_index_lt _ _ _ E) as Hk. unfold size_add, size.
      pose proof (Z.mod_le (Z.of_nat k + 1) (2 ^ 64) ltac:(lia) ltac:(lia)). lia.
    - unfold size_add, npos, size. change ((2 ^ 64 - 1 + 1) mod 2 ^ 64) with 0. lia. }
  unfold substr.
  destruct (Z.gtb_spec
              (size_add
                 (match last_index "." fileName with
                  | Some k => Z.of_nat k
                  | None => npos
                  end) 1) (size fileName)); [lia|].
  cbn [bind]. now eexists.
Qed.

Section WithFiles.

Variable open_file : string -> option string.
Variable list_dir : string -> option (list string).

(** X21.  [readFileByPath] does not throw, and it returns text only for a
    path that has a dot, whose part after the last dot is [txt] in any
    letter case, and that can be opened: the text is then the content of
    the file and nothing is written to the error stream. *)
Theorem readFileByPath_content (filePath : string) :
  size filePath < npos ->
  exists content warning,
    readFileByPath open_file filePath = Some (content, warning) /\
    (content <> EmptyString ->
     open_file filePath = Some content /\ warning = EmptyString /\
     exists k, last_index "." filePath = Some k /\
               transform CType.tolower (drop (S k) filePath) = "txt"%string).
Proof.
  intros Hs. unfold readFileByPath. rewrite find_last_of_spec.
  destruct (last_index "." filePath) as [k|] eqn:E.
  - pose proof (last_index_lt _ _ _ E) as Hk. unfold size, npos in Hs.
    destruct (Z.eqb_spec (Z.of_nat k) npos) as [Hn|_]; [unfold npos in Hn; lia|].
    rewrite (substr_after _ _ _ E) by (unfold size, npos; lia). cbn [bind].
    destruct (String.eqb_spec (transform CType.tolower (drop (S k) filePath)) "txt")
      as [Ht|_].
    + destruct (open_file filePath) as [content|].
      * exists content, EmptyString. split; [reflexivity|].
        intros _. repeat split; trivial. now exists k.
      * exists EmptyString, EmptyString. split; [reflexivity|]. congruence.
    + destruct (String.eqb _ "pdf"); [|destruct (String.eqb _ "docx")];
        eexists EmptyString, _; (split; [reflexivity|congruence]).
  - change (npos =? npos) with true. cbn.
    eexists EmptyString, _. split; [reflexivity|congruence].
Qed.

(** X22.  For a name with a dot, a reader over a folder returns the same
    text as [readFileByPath] does for the stored folder path followed by
    the name (the warnings differ: one names the file, the other the
    path). *)
Theorem readFile_by_path (r : t) (filename : string) :
  count_char "." filename <> O ->
  size (folderPath r ++ filename) < npos ->
  exists content warning1 warning2,
    readFile open_file r filename = Some (content, warning1) /\
    readFileByPath open_file (folderPath r ++ filename) = Some (content, warning2).
Proof.
  intros Hdot Hs.
  assert (Hsize : size (folderPath r ++ filename)
                  = size (folderPath r) + size filename).
  { unfold size. rewrite length_append. lia. }
  destruct (last_index "." filename) as [k|] eqn:E;
    [|apply last_index_count in E; contradiction].
  unfold readFile. rewrite extension_spec by (unfold size in *; lia).
  rewrite E. cbn [bind].
  unfold readFileByPath. rewrite find_last_of_spec, last_index_app, E.
  pose proof (last_index_lt _ _ _ E) as Hk.
  destruct (Z.eqb_spec (Z.of_nat (String.length (folderPath r) + k)) npos) as [Hn|_].
  { unfold size, npos in *. lia. }
  rewrite (substr_after "." (folderPath r ++ filename) (String.length (folderPath r) + k))
    by (trivial; now rewrite last_index_app, E).
  cbn [bind].
  replace (S (String.length (folderPath r) + k))
    with (String.length (folderPath r) + S k)%nat by lia.
  rewrite drop_app.
  destruct (String.eqb _ "txt").
  - unfold readTXT. destruct (open_file (folderPath r ++ filename)) as [content|];
      now eexists _, _, _.
  - destruct (String.eqb _ "pdf"); [now eexists _, _, _|].
    destruct (String.eqb _ "docx"); now eexists _, _, _.
Qed.

(** X23.  A name without a dot: [npos + 1] wraps to 0, so a reader over a
    folder takes the whole name, lowercased, for the extension, while
    [readFileByPath] reports a path without a dot as having no extension
    and returns no text. *)
Theorem name_without_dot (r : t) (name : string) :
  count_char "." name = O ->
  extension name = Some (transform CType.tolower name) /\
  readFile open_file r name
  = Some (if String.eqb (transform CType.tolower name) "txt" then readTXT open_file r name
          else if String.eqb (transform CType.tolower name) "pdf" then readPDF r name
          else if String.eqb (transform CType.tolower name) "docx" then readDOCX r name
          else (EmptyString, unsupported_warning (transform CType.tolower name))) /\
  readFileByPath open_file name = Some (EmptyString, no_extension_warning name).
Proof.
  intros Hdot. apply last_index_count in Hdot.
  assert (Hext : extension name = Some (transform CType.tolower name)).
  { unfold extension. rewrite find_last_of_spec, Hdot.
    unfold size_add, npos. change ((2 ^ 64 - 1 + 1) mod 2 ^ 64) with 0.
    unfold substr, size.
    destruct (Z.gtb_spec 0 (Z.of_nat (String.length name))); [lia|reflexivity]. }
  split; [exact Hext|]. split.
  - unfold readFile. rewrite Hext. cbn [bind].
    destruct (String.eqb _ "txt"); [reflexivity|].
    destruct (String.eqb _ "pdf"); [reflexivity|].
    now destruct (String.eqb _ "docx").
  - unfold readFileByPath. rewrite find_last_of_spec, Hdot. reflexivity.
Qed.

Lemma getFileNames_loop (entries acc : list string) :
  for_each entries
    (fun fileName fileNames =>
       if negb (String.eqb fileName ".") && negb (String.eqb fileName "..")
       then
         ext <- extension fileName;;
         if supported ext then Some (fileNames ++ [fileName])
         else Some fileNames
       else Some fileNames)
    acc
  = Some (acc ++ filter listed entries).
Proof.
  revert acc. induction entries as [|e entries IH]; intros acc.
  - cbn. now rewrite app_nil_r.
  - cbn [for_each filter].
    destruct (extension_total e) as [ext Hext].
    assert (Hl : listed e
                 = negb (String.eqb e ".") && negb (String.eqb e "..")
                   && supported ext) by (unfold listed; now rewrite Hext).
    rewrite Hl, Hext.
    destruct (negb (String.eqb e ".") && negb (String.eqb e "..")); cbn [bind andb].
    + destruct (supported ext); cbn [bind]; rewrite IH; [|reflexivity].
      now rewrite <- app_assoc.
    + now rewrite IH.
Qed.

(** X24.  [getFileNames] does not throw.  It returns no name when the
    directory cannot be opened; otherwise it returns, in the order of the
    directory, the entries other than [.] and [..] whose extension is
    [txt], [pdf] or [docx], and [readFile] takes one of its three readers
    for each of them, never the branch of the unsupported types. *)
Theorem getFileNames_spec (r : t) :
  getFileNames list_dir r
  = Some (match list_dir (folderPath r) with
          | Some entries => filter listed entries
          | None => []
          end) /\
  forall names name,
    getFileNames list_dir r = Some names -> In name names ->
    name <> "."%string /\ name <> ".."%string /\
    (readFile open_file r name = Some (readTXT open_file r name)
     \/ readFile open_file r name = Some (readPDF r name)
     \/ readFile open_file r name = Some (readDOCX r name)).
Proof.
  assert (Hget : getFileNames list_dir r
                 = Some (match list_dir (folderPath r) with
                         | Some entries => filter listed entries
                         | None => []
                         end)).
  { unfold getFileNames. destruct (list_dir (folderPath r)) as [entries|];
      [|reflexivity]. now rewrite getFileNames_loop. }
  split; [exact Hget|].
  intros names name Hnames Hin. rewrite Hget in Hnames. injection Hnames as <-.
  assert (Hl : listed name = true).
  { destruct (list_dir (folderPath r)); [|contradiction].
    now apply filter_In in Hin. }
  unfold listed in Hl. apply andb_prop in Hl as [Hl Hext].
  apply andb_prop in Hl as [H1 H2].
  split; [intros ->; discriminate|]. split; [intros ->; discriminate|].
  unfold readFile. destruct (extension name) as [ext|]; [|discriminate].
  cbn [bind]. unfold supported in Hext.
  destruct (String.eqb ext "txt"); [now left|].
  destruct (String.eqb ext "pdf"); [now right; left|].
  destruct (String.eqb ext "docx"); [now right; right|discriminate].
Qed.

End WithFiles.

End FileReaderFacts.

(* ================================================================== *)
(** * main: arguments, names and documents *)
(* ================================================================== *)

Module MainFacts.
Import StdString Main StringFacts ListFacts ReportFacts TextCleanerFacts.

Lemma for_each_invariant {A S : Type} (P : S -> Prop) (l : list A)
  (body : A -> S -> option S) (s s' : S) :
  (forall x t t', P t -> body x t = Some t' -> P t') ->
  P s -> for_each l body s = Some s' -> P s'.
Proof.
  intros Hstep. revert s. induction l as [|x l IH]; intros s Hs; cbn [for_each].
  - now intros [= <-].
  - destruct (body x s) as [t|] eqn:E; [|discriminate]. cbn [bind].
    apply IH. exact (Hstep x s t Hs E).
Qed.

Lemma accepted_default : accepted default_threshold.
Proof. split; reflexivity. Qed.

Lemma accepted_validate (x : float) : accepted (validate x).
Proof.
  unfold validate. destruct (PrimFloat.ltb x 0) eqn:E0; [exact accepted_default|].
  destruct (PrimFloat.ltb 1 x) eqn:E1; [exact accepted_default|]. now split.
Qed.

Lemma substr_end (s : string) (n : nat) :
  (n <= String.length s)%nat ->
  substr s (size s - Z.of_nat n) = Some (drop (String.length s - n) s).
Proof.
  intros Hn. unfold substr, size.
  destruct (Z.gtb_spec (Z.of_nat (String.length s) - Z.of_nat n)
              (Z.of_nat (String.length s))); [lia|].
  do 2 f_equal. lia.
Qed.

(** The end of a text is [suffix] exactly when the text is some stem
    followed by [suffix]. *)
Lemma drop_ends (s suffix : string) :
  (String.length suffix <= String.length s)%nat ->
  drop (String.length s - String.length suffix) s = suffix
  <-> exists stem, s = (stem ++ suffix)%string.
Proof.
  intros Hn. split.
  - intros E.
    destruct (drop_suffix (String.length s - String.length suffix) s) as [stem [Hs _]];
      [lia|]. exists stem. now rewrite E in Hs.
  - intros [stem ->]. rewrite length_append.
    replace (String.length stem + String.length suffix - String.length suffix)%nat
      with (String.length stem + 0)%nat by lia.
    now rewrite drop_app.
Qed.

Lemma ends_stem (stem suffix : string) :
  (String.length suffix < String.length (stem ++ suffix))%nat <-> stem <> EmptyString.
Proof.
  rewrite length_append. destruct stem; simpl; split; intros H; try lia; congruence.
Qed.

Lemma is_input_file_cases (arg : string) :
  is_input_file arg
  = Some ((4 <? String.length arg)%nat
          && (String.eqb (drop (String.length arg - 4) arg) ".txt"
              || String.eqb (drop (String.length arg - 4) arg) ".pdf"
              || (5 <? String.length arg)%nat
                 && String.eqb (drop (String.length arg - 5) arg) ".docx")).
Proof.
  unfold is_input_file.
  change (size arg - 4) with (size arg - Z.of_nat 4).
  change (size arg - 5) with (size arg - Z.of_nat 5).
  destruct (Nat.ltb_spec 4 (String.length arg)) as [H4|H4].
  - destruct (Z.gtb_spec (size arg) 4); [|unfold size in *; lia].
    rewrite (substr_end arg 4) by lia. cbn [bind andb].
    destruct (String.eqb _ ".txt"); [reflexivity|].
    destruct (String.eqb _ ".pdf"); [reflexivity|]. cbn [orb].
    destruct (Nat.ltb_spec 5 (String.length arg)) as [H5|H5].
    + destruct (Z.gtb_spec (size arg) 5); [|unfold size in *; lia].
      now rewrite (substr_end arg 5) by lia.
    + destruct (Z.gtb_spec (size arg) 5); [unfold size in *; lia|reflexivity].
  - destruct (Z.gtb_spec (size arg) 4); [unfold size in *; lia|reflexivity].
Qed.

(** X26.  The test of the file mode for an input file does not throw, and
    an argument passes it exactly when it is a stem that is not empty
    followed by [.txt], [.pdf] or [.docx] in lower case. *)
Theorem is_input_file_spec (arg : string) :
  exists b,
    is_input_file arg = Some b /\
    (b = true <->
     exists stem, stem <> EmptyString /\
       (arg = (stem ++ ".txt")%string \/ arg = (stem ++ ".pdf")%string
        \/ arg = (stem ++ ".docx")%string)).
Proof.
  eexists. split; [apply is_input_file_cases|].
  assert (Hend : forall suffix,
             ((String.length suffix <? String.length arg)%nat
              && String.eqb (drop (String.length arg - String.length suffix) arg) suffix
              = true)
             <-> exists stem, stem <> EmptyString /\ arg = (stem ++ suffix)%string).
  { intros suffix. rewrite andb_true_iff, Nat.ltb_lt, String.eqb_eq. split.
    - intros [Hlen E]. apply drop_ends in E; [|lia]. destruct E as [stem ->].
      exists stem. split; [exact (proj1 (ends_stem stem suffix) Hlen)|reflexivity].
    - intros [stem [Hne ->]]. pose proof (proj2 (ends_stem stem suffix) Hne) as Hl.
      split; [exact Hl|]. apply drop_ends; [lia|now exists stem]. }
  pose proof (Hend ".txt"%string) as Htxt.
  pose proof (Hend ".pdf"%string) as Hpdf.
  pose proof (Hend ".docx"%string) as Hdocx.
  cbn [String.length] in Htxt, Hpdf, Hdocx.
  assert (Hb : (4 <? String.length arg)%nat
               && (String.eqb (drop (String.length arg - 4) arg) ".txt"
                   || String.eqb (drop (String.length arg - 4) arg) ".pdf"
                   || (5 <? String.length arg)%nat
                      && String.eqb (drop (String.length arg - 5) arg) ".docx") = true
               <-> ((4 <? String.length arg)%nat
                    && String.eqb (drop (String.length arg - 4) arg) ".txt" = true
                    \/ (4 <? String.length arg)%nat
                       && String.eqb (drop (String.length arg - 4) arg) ".pdf" = true
                    \/ (5 <? String.length arg)%nat
                       && String.eqb (drop (String.length arg - 5) arg) ".docx" = true)).
  { destruct (Nat.ltb_spec 4 (String.length arg));
      destruct (Nat.ltb_spec 5 (String.length arg)); try lia;
      destruct (String.eqb _ ".txt"); destruct (String.eqb _ ".pdf");
      destruct (String.eqb _ ".docx"); cbn; intuition discriminate. }
  rewrite Hb, Htxt, Hpdf, Hdocx. split.
  - intros [[stem H]|[[stem H]|[stem H]]]; exists stem; tauto.
  - intros [stem [Hne [H|[H|H]]]]; [left|right; left|right; right]; now exists stem.
Qed.

Lemma find_from_absent (c : ascii) (s : string) (pos : Z) :
  count_char c s = O -> find_from c s pos = npos.
Proof.
  revert pos. induction s as [|c' s IH]; intros pos; simpl; [reflexivity|].
  destruct (Ascii.eqb c c'); simpl; [discriminate|]. intros H. now apply IH.
Qed.

Lemma find_from_present (c : ascii) (s : string) (pos : Z) :
  count_char c s <> O -> pos <= find_from c s pos < pos + size s.
Proof.
  unfold size. revert pos. induction s as [|c' s IH]; intros pos; simpl String.length;
    simpl; [contradiction|].
  destruct (Ascii.eqb c c'); simpl; [lia|]. intros H. specialize (IH (pos + 1) H). lia.
Qed.

Lemma from_folder_config (list_dir : string -> option (list string))
  (inputFolder message : string) (cfg cfg' : config) :
  from_folder list_dir inputFolder message cfg = Some (inl cfg') ->
  outputFile cfg' = outputFile cfg /\ threshold cfg' = threshold cfg.
Proof.
  unfold from_folder.
  destruct (FileReader.getFileNames list_dir (FileReader.make inputFolder))
    as [[|n names]|]; cbn [bind]; [discriminate| |discriminate].
  intros [= <-]. now split.
Qed.

Section WithEnvironment.

Variable open_file : string -> option string.
Variable list_dir : string -> option (list string).
Variable stod : string -> option float.
Variable log10 : float -> float.
Variable put_fixed : nat -> float -> string.
Variable put_general : float -> string.
Variable can_open : string -> bool.

Lemma file_mode_arg_accepted (arg : string) (cfg cfg' : config) :
  accepted (threshold cfg) -> file_mode_arg stod arg cfg = Some cfg' ->
  accepted (threshold cfg').
Proof.
  intros Hacc. unfold file_mode_arg. rewrite is_input_file_cases. cbn [bind].
  destruct (_ && _); [now intros [= <-]|].
  destruct (_ && _); [now intros [= <-]|].
  destruct (stod arg) as [x|]; intros [= <-]; [apply accepted_validate|exact Hacc].
Qed.

(** X25.  Whatever the arguments, the threshold that the argument processing
    leaves is not below 0 and not above 1: it is the default 0.70, or the
    number read from an argument when that is within the interval or is
    NaN. *)
Theorem parse_threshold (argv : list string) (cfg : config) :
  parse list_dir stod argv = Some (inl cfg) ->
  accepted (threshold cfg).
Proof.
  unfold parse. destruct argv as [|prog [|firstArg rest]].
  - intros H. apply from_folder_config in H as [_ ->]. exact accepted_default.
  - intros H. apply from_folder_config in H as [_ ->]. exact accepted_default.
  - destruct (String.eqb firstArg "-f" || String.eqb firstArg "--files").
    + destruct (for_each rest (file_mode_arg stod) _) as [c|] eqn:E; [|discriminate].
      cbn [bind]. intros [= <-].
      refine (for_each_invariant (fun c => accepted (threshold c)) rest
                (file_mode_arg stod) _ c _ _ E); [|exact accepted_default].
      intros x t t'. apply file_mode_arg_accepted.
    + destruct rest as [|out [|thr rest]].
      * cbn [bind]. intros H. apply from_folder_config in H as [_ ->].
        exact accepted_default.
      * cbn [bind]. intros H. apply from_folder_config in H as [_ ->].
        exact accepted_default.
      * destruct (stod thr) as [x|]; [|discriminate]. cbn [bind].
        intros H. apply from_folder_config in H as [_ ->]. apply accepted_validate.
Qed.

Lemma file_mode_arg_dotted (arg : string) (cfg : config) :
  size arg < npos -> dotted arg ->
  exists cfg', file_mode_arg stod arg cfg = Some cfg' /\
               threshold cfg' = threshold cfg.
Proof.
  intros Hs [Hdot [Hslash Hback]]. unfold file_mode_arg.
  rewrite is_input_file_cases. cbn [bind].
  destruct (_ && _); [now eexists|].
  unfold find. rewrite (find_from_absent "/" arg 0 Hslash).
  rewrite (find_from_absent "\" arg 0 Hback).
  pose proof (find_from_present "." arg 0 Hdot) as Hp.
  destruct (Z.eqb_spec (find_from "." arg 0) npos) as [E|_]; [lia|].
  change (npos =? npos) with true. cbn [negb andb]. now eexists.
Qed.

(** X27.  In file mode an argument with a dot and without slash or
    backslash is taken for an input file or for the name of the report, and
    never for the threshold: when every argument after the flag is of this
    kind, such as [0.5], the processing succeeds and the threshold is the
    default 0.70, whatever [std::stod] would read. *)
Theorem file_mode_dotted_arguments (prog flag : string) (rest : list string) :
  flag = "-f"%string \/ flag = "--files"%string ->
  Forall (fun arg => size arg < npos /\ dotted arg) rest ->
  exists cfg,
    parse list_dir stod (prog :: flag :: rest) = Some (inl cfg) /\
    threshold cfg = default_threshold.
Proof.
  intros Hflag Hrest. unfold parse.
  assert (Hf : String.eqb flag "-f" || String.eqb flag "--files" = true)
    by (destruct Hflag as [-> | ->]; reflexivity).
  rewrite Hf.
  assert (Hloop : forall start,
             exists cfg, for_each rest (file_mode_arg stod) start = Some cfg /\
                         threshold cfg = threshold start).
  { induction Hrest as [|arg rest [Hs Hd] _ IH]; intros start.
    - now exists start.
    - cbn [for_each].
      destruct (file_mode_arg_dotted arg start Hs Hd) as [c [-> Hc]]. cbn [bind].
      destruct (IH c) as [cfg [-> Hcfg]]. exists cfg. split; [reflexivity|congruence]. }
  destruct (Hloop (mkConfig (outputFile defaults) (threshold defaults) [] [] true))
    as [cfg [-> Hcfg]].
  cbn [bind]. now exists cfg.
Qed.



Lemma readFileByPath_total (path : string) :
  FileReader.readFileByPath open_file path = Some (read_of open_file path).
Proof.
  unfold read_of.
  assert (H : exists read, FileReader.readFileByPath open_file path = Some read).
  { unfold FileReader.readFileByPath. rewrite find_last_of_spec.
    destruct (last_index "." path) as [k|] eqn:E.
    - destruct (Z.of_nat k =? npos); [now eexists|].
      destruct (substr_after_total _ _ _ E) as [rest ->]. cbn [bind].
      destruct (String.eqb _ "txt"); [destruct (open_file path); now eexists|].
      destruct (String.eqb _ "pdf"); [now eexists|].
      destruct (String.eqb _ "docx"); now eexists.
    - change (npos =? npos) with true. now eexists. }
  destruct H as [read ->]. reflexivity.
Qed.

Lemma loadDocuments_loop (cleaner : TextCleaner.t) (paths : list string)
  (documents : list (list string)) (warnings : string) :
  for_each paths
    (fun path state =>
       let '(processedDocuments, warnings) := state in
       read <- FileReader.readFileByPath open_file path;;
       let '(content, warning) := read in
       if String.eqb content EmptyString
       then Some (processedDocuments, (warnings ++ warning)%string)
       else Some (processedDocuments ++ [TextCleaner.preprocess cleaner content],
                  (warnings ++ warning)%string))
    (documents, warnings)
  = Some (documents
            ++ map (TextCleaner.preprocess cleaner)
                 (filter has_content (map (fun path => fst (read_of open_file path)) paths)),
          (warnings ++ lines (map (fun path => snd (read_of open_file path)) paths))%string).
Proof.
  revert documents warnings.
  induction paths as [|path paths IH]; intros documents warnings.
  - cbn. now rewrite app_nil_r, append_nil_r.
  - cbn [for_each map filter lines fold_right]. rewrite readFileByPath_total.
    cbn [bind]. destruct (read_of open_file path) as [content warning].
    cbn [fst snd]. unfold has_content at 1.
    destruct (String.eqb content EmptyString); cbn [negb];
      refine (eq_trans (IH _ _) _).
    + now rewrite append_assoc.
    + cbn [map]. now rewrite append_assoc, <- app_assoc.
Qed.

(** X29.  Reading the documents does not throw.  The documents are the
    preprocessed contents of the paths that [readFileByPath] returns text
    for, in the order of the paths, and a path without text leaves no
    document: the documents after it move up by one position, while the
    names keep theirs. *)
Theorem loadDocuments_spec (cleaner : TextCleaner.t) (paths : list string) :
  loadDocuments open_file cleaner paths
  = Some (map (TextCleaner.preprocess cleaner)
            (filter has_content (map (fun path => fst (read_of open_file path)) paths)),
          lines (map (fun path => snd (read_of open_file path)) paths)) /\
  forall before path after,
    fst (read_of open_file path) = EmptyString ->
    option_map fst (loadDocuments open_file cleaner (before ++ path :: after))
    = option_map fst (loadDocuments open_file cleaner (before ++ after)).
Proof.
  assert (H : forall l,
             loadDocuments open_file cleaner l
             = Some (map (TextCleaner.preprocess cleaner)
                       (filter has_content
                          (map (fun path => fst (read_of open_file path)) l)),
                     lines (map (fun path => snd (read_of open_file path)) l))).
  { intros l. unfold loadDocuments. now rewrite loadDocuments_loop. }
  split; [apply H|].
  intros before path after Hempty. rewrite !H. cbn [option_map fst].
  rewrite !map_app, !filter_app. cbn [map filter]. now rewrite Hempty.
Qed.

(** X30.  Once a document has been loaded the run completes with exit code
    0, also when the report cannot be opened.  The report holds the header
    and one row per pair of loaded documents; the rows are those of the
    results that the engine stores for the loaded documents under the
    document names, so a row is labelled by the positions of its documents
    among the loaded ones. *)
Theorem main_completes (argv : list string) (parsed cfg : config)
  (documents : list (list string)) (warnings : string) :
  parse list_dir stod argv = Some (inl parsed) ->
  fill_names parsed = Some cfg ->
  loadDocuments open_file TextCleaner.make (filePaths cfg) = Some (documents, warnings) ->
  documents <> [] ->
  Z.of_nat (List.length documents) <= INT_MAX ->
  exists checker run,
    engine log10 documents (documentNames cfg) = Some checker /\
    main open_file list_dir stod log10 put_fixed put_general can_open argv = Some run /\
    exit_code run = 0 /\
    report run
    = if can_open (outputFile cfg)
      then Some (ReportWriter.header
                   ++ lines (map (ReportWriter.row put_fixed
                                    (ReportWriter.mk (outputFile cfg) (threshold cfg)))
                               (map (entry checker)
                                  (index_pairs (Z.of_nat (List.length documents))))))%string
      else None.
Proof.
  intros Hparse Hfill Hload Hdocs Hfit.
  rewrite (EngineFacts.engine_vectors log10 documents (documentNames cfg)).
  eexists. unfold main. rewrite Hparse. cbn [bind]. rewrite Hfill. cbn [bind].
  destruct (filePaths cfg) as [|path paths] eqn:Epaths.
  { cbn in Hload. injection Hload as <- _. contradiction. }
  rewrite Hload. cbn [bind].
  destruct documents as [|d documents]; [contradiction|].
  rewrite (FeatureFacts.computeTFIDF_make log10 (d :: documents)). cbn [bind].
  unfold FeatureExtractor.getAllTFIDFVectors. cbn [FeatureExtractor.tfidfVectors].
  rewrite CompareAllFacts.compareAll_entries
    by (unfold numVectors; cbn [SimilarityChecker.tfidfVectors];
        now rewrite length_map).
  cbn [bind]. eexists. split; [reflexivity|]. split; [reflexivity|].
  split; [reflexivity|]. cbn [report].
  unfold numVectors. cbn [SimilarityChecker.tfidfVectors]. rewrite length_map.
  unfold ReportWriter.writeCSV.
  destruct (can_open (outputFile cfg)); cbn [negb ReportWriter.file]; [|reflexivity].
  now rewrite fold_rows.
Qed.


End WithEnvironment.

End MainFacts.

(* ================================================================== *)
(** * The formatter of the examples *)
(* ================================================================== *)

Module FixedFormatFacts.
Import FixedFormat TextCleanerFacts.

Lemma plain_counts (s : string) :
  all_chars plain s = true ->
  count_char "010" s = O /\ count_char "034" s = O.
Proof.
  induction s as [|c s IH]; cbn [all_chars count_char]; [now split|]. intros H.
  apply andb_prop in H as [Hc Hs]. destruct (IH Hs) as [-> ->].
  unfold plain in Hc. apply andb_prop in Hc as [H1 H2].
  rewrite (Ascii.eqb_sym "010" c), (Ascii.eqb_sym "034" c).
  destruct (Ascii.eqb c "010"); [discriminate|].
  destruct (Ascii.eqb c "034"); [discriminate|]. now split.
Qed.

Lemma uint_plain (d : Decimal.uint) :
  all_chars plain (NilEmpty.string_of_uint d) = true.
Proof. induction d; simpl; auto. Qed.

Lemma digits_plain (n : Z) : all_chars plain (digits n) = true.
Proof.
  unfold digits, NilZero.string_of_int, NilZero.string_of_uint.
  destruct (Z.to_int n) as [d|d]; destruct d; try reflexivity;
    try exact (uint_plain _); simpl; apply uint_plain.
Qed.

Lemma zeros_plain (n : nat) : all_chars plain (zeros n) = true.
Proof. induction n; simpl; auto. Qed.

Lemma fraction_plain (p : nat) (n : Z) : all_chars plain (fraction p n) = true.
Proof.
  unfold fraction. destruct p; [reflexivity|].
  rewrite !all_chars_app, zeros_plain, digits_plain. reflexivity.
Qed.

(** The formatter prints signs, digits, a point and letters only. *)
Lemma put_fixed_plain (p : nat) (x : float) :
  all_chars plain (put_fixed p x) = true.
Proof.
  unfold put_fixed. destruct (Prim2SF x) as [s|s| |s m e].
  - rewrite !all_chars_app, fraction_plain. now destruct s.
  - rewrite all_chars_app. now destruct s.
  - reflexivity.
  - rewrite !all_chars_app, digits_plain, fraction_plain. now destruct s.
Qed.

End FixedFormatFacts.

(* ================================================================== *)
(** * Examples of the further properties *)
(* ================================================================== *)

Module MoreExamples.
Import StdMap FeatureExtractor SimilarityChecker.
Import ExtractorFacts CheckerFacts SignFacts ReportLineFacts TextCleanerFacts.
Import FileReaderFacts MainFacts.

(** In the scenario, [data] is a vocabulary term found in two documents. *)
Lemma computeIDF_constructed_witness :
  In "data"%string (getVocabulary (make scenario)) /\
  1 <= docCount scenario "data" <= 3 /\
  find "data"%string (computeIDF Log10.log10 (make scenario))
  = Some (Log10.log10 (to_double 3 / to_double 2)%float).
Proof.
  assert (H : In "data"%string (getVocabulary (make scenario)))
    by (vm_compute; left; reflexivity).
  split; [exact H|].
  exact (computeIDF_constructed Log10.log10 scenario "data"%string H).
Defined.

(** One document gives no result. *)
Lemma few_documents_no_results_witness :
  (List.length [["data"; "structures"]]%string <= 1)%nat /\
  (sc <- engine Log10.log10 [["data"; "structures"]]%string ["A"]%string;;
   compareAll sc) = Some [].
Proof.
  assert (H : (List.length [["data"; "structures"]]%string <= 1)%nat)
    by (simpl; lia).
  split; [exact H|].
  exact (few_documents_no_results Log10.log10 [["data"; "structures"]]%string
           ["A"]%string H).
Defined.

Lemma dotProduct_disjoint_witness :
  (forall k, In k (keys left_vector) -> ~ In k (keys right_vector)) /\
  dotProduct left_vector right_vector = 0%float.
Proof.
  assert (H : forall k, In k (keys left_vector) -> ~ In k (keys right_vector)).
  { intros k [<-|[<-|[]]] [E|[]]; discriminate E. }
  split; [exact H|]. exact (dotProduct_disjoint left_vector right_vector H).
Defined.

(** The vector of zeros of both signs against the vector of ones. *)
Lemma zero_vector_similarity_witness :
  Forall (fun e => is_zero (snd e)) [("a", 0); ("b", -0)]%string%float /\
  cosineSimilarity zeros_and_ones 0 1 = Some 0%float /\
  cosineSimilarity zeros_and_ones 1 0 = Some 0%float.
Proof.
  assert (H1 : numVectors zeros_and_ones <= INT_MAX) by (vm_compute; discriminate).
  assert (H2 : 0 <= 0) by lia.
  assert (H3 : Forall (fun e => is_zero (snd e)) [("a", 0); ("b", -0)]%string%float).
  { repeat constructor; [exists false|exists true]; reflexivity. }
  assert (H4 : 1 <> 0) by discriminate.
  split; [exact H3|].
  exact (zero_vector_similarity zeros_and_ones 0 1 _ H1 H2 eq_refl H3 H4).
Defined.

(** Three vectors and one name: two documents get the placeholder. *)
Lemma compareAll_labels_witness :
  numVectors three_vectors <= INT_MAX /\
  exists results,
    compareAll three_vectors = Some results /\
    Forall2
      (fun p r =>
         fst (fst r) = label ["A"]%string (fst p) /\
         snd (fst r) = label ["A"]%string (snd p))
      [(0, 1); (0, 2); (1, 2)] results.
Proof.
  assert (H1 : numVectors three_vectors <= INT_MAX) by (vm_compute; discriminate).
  assert (H2 : Z.of_nat (List.length (documentNames three_vectors)) <= INT_MAX)
    by (vm_compute; discriminate).
  split; [exact H1|]. exact (compareAll_labels three_vectors H1 H2).
Defined.

Lemma placeholder_names_distinct_witness :
  label ["A"]%string 1 = "Document1"%string /\
  label ["A"]%string 12 = "Document12"%string /\
  label ["A"]%string 1 <> label ["A"]%string 12.
Proof.
  assert (H1 : Z.of_nat (List.length ["A"]%string) <= 1) by (simpl; lia).
  assert (H2 : Z.of_nat (List.length ["A"]%string) <= 12) by (simpl; lia).
  assert (H3 : 1 <> 12) by discriminate.
  split; [reflexivity|]. split; [reflexivity|].
  exact (placeholder_names_distinct ["A"]%string 1 12 H1 H2 H3).
Defined.

(** The similarity of the two vectors of ones, which rounding puts above
    1, is not negative. *)
Lemma cosineSimilarity_not_negative_witness :
  Forall (Forall (fun e => not_negative (snd e))) (tfidfVectors two_ones) /\
  cosineSimilarity two_ones 0 1 = Some 0x1.0000000000001p+0%float /\
  not_negative 0x1.0000000000001p+0%float.
Proof.
  assert (H1 : Forall (Forall (fun e => not_negative (snd e))) (tfidfVectors two_ones))
    by (repeat constructor).
  assert (H2 : cosineSimilarity two_ones 0 1 = Some 0x1.0000000000001p+0%float)
    by (vm_compute; reflexivity).
  split; [exact H1|]. split; [exact H2|].
  exact (cosineSimilarity_not_negative two_ones 0 1 _ H1 H2).
Defined.

(** The report of three results has four lines and six quotes. *)
Lemma writeCSV_lines_witness :
  exists content,
    ReportWriter.file
      (ReportWriter.writeCSV FixedFormat.put_fixed writer true three_results)
    = Some content /\
    count_char "010" content = 4%nat /\
    count_char "034" content = 6%nat.
Proof.
  assert (H1 : forall x, count_char "010" (FixedFormat.put_fixed 2 x) = O /\
                         count_char "034" (FixedFormat.put_fixed 2 x) = O)
    by (intros x; apply FixedFormatFacts.plain_counts,
          FixedFormatFacts.put_fixed_plain).
  assert (H2 : Forall (fun r => count_char "010" (fst (fst r)) = O /\
                                count_char "010" (snd (fst r)) = O /\
                                count_char "034" (fst (fst r)) = O /\
                                count_char "034" (snd (fst r)) = O) three_results)
    by (repeat constructor).
  exact (writeCSV_lines FixedFormat.put_fixed writer three_results H1 H2).
Defined.

Lemma preprocess_tokens_witness :
  TextCleaner.preprocess TextCleaner.make "The Data, structures!"
  = ["data"; "structures"]%string /\
  "data"%string <> EmptyString /\
  all_chars lower_alnum "data" = true /\
  TextCleaner.contains (TextCleaner.stopWords TextCleaner.make) "data" = false.
Proof.
  assert (H : In "data"%string
                (TextCleaner.preprocess TextCleaner.make "The Data, structures!"))
    by (vm_compute; left; reflexivity).
  split; [vm_compute; reflexivity|].
  exact (preprocess_tokens TextCleaner.make "The Data, structures!" "data" H).
Defined.

Lemma tokenize_spaced_witness :
  spaced ["data"; "structures"]%string = "data structures "%string /\
  TextCleaner.tokenize (spaced ["data"; "structures"]%string)
  = ["data"; "structures"]%string.
Proof.
  assert (H : Forall (fun w => w <> EmptyString /\
                               all_chars (fun c => negb (CType.isspace c)) w = true)
                ["data"; "structures"]%string)
    by (repeat constructor; discriminate).
  split; [reflexivity|]. exact (tokenize_spaced ["data"; "structures"]%string H).
Defined.

(** Two texts joined by a comma. *)
Lemma preprocess_append_witness :
  CType.isalnum "," = false /\
  TextCleaner.preprocess TextCleaner.make "Data,structures"
  = (TextCleaner.preprocess TextCleaner.make "Data"
     ++ TextCleaner.preprocess TextCleaner.make "structures")%list.
Proof.
  assert (H : CType.isalnum "," = false) by reflexivity.
  split; [exact H|].
  exact (preprocess_append TextCleaner.make "Data" "structures" "," H).
Defined.

Lemma preprocess_no_alnum_witness :
  all_chars (fun c => negb (CType.isalnum c)) " ,.! " = true /\
  TextCleaner.preprocess TextCleaner.make " ,.! " = [].
Proof.
  assert (H : all_chars (fun c => negb (CType.isalnum c)) " ,.! " = true)
    by reflexivity.
  split; [exact H|]. exact (preprocess_no_alnum TextCleaner.make " ,.! " H).
Defined.

(** A text file of the folder [docs], under an upper-case extension. *)
Lemma readFileByPath_content_witness :
  StdString.size "docs/c.TXT" < StdString.npos /\
  exists content warning,
    FileReader.readFileByPath disk "docs/c.TXT" = Some (content, warning) /\
    (content <> EmptyString ->
     disk "docs/c.TXT" = Some content /\ warning = EmptyString /\
     exists k, last_index "." "docs/c.TXT" = Some k /\
               transform CType.tolower (StdString.drop (S k) "docs/c.TXT")
               = "txt"%string).
Proof.
  assert (H : StdString.size "docs/c.TXT" < StdString.npos) by reflexivity.
  split; [exact H|]. exact (readFileByPath_content disk "docs/c.TXT" H).
Defined.

Lemma readFile_by_path_witness :
  count_char "." "b.txt" <> O /\
  exists content warning1 warning2,
    FileReader.readFile disk (FileReader.make "docs") "b.txt"
    = Some (content, warning1) /\
    FileReader.readFileByPath disk "docs/b.txt" = Some (content, warning2).
Proof.
  assert (H1 : count_char "." "b.txt" <> O) by discriminate.
  assert (H2 : StdString.size
                 (FileReader.folderPath (FileReader.make "docs") ++ "b.txt")
               < StdString.npos) by reflexivity.
  split; [exact H1|].
  exact (readFile_by_path disk (FileReader.make "docs") "b.txt" H1 H2).
Defined.

(** The file [notes] of the folder has no dot in its name. *)
Lemma name_without_dot_witness :
  count_char "." "notes" = O /\
  FileReader.extension "notes" = Some "notes"%string /\
  FileReader.readFile disk (FileReader.make "docs") "notes"
  = Some (EmptyString, FileReader.unsupported_warning "notes") /\
  FileReader.readFileByPath disk "notes"
  = Some (EmptyString, FileReader.no_extension_warning "notes").
Proof.
  assert (H : count_char "." "notes" = O) by reflexivity.
  split; [exact H|].
  exact (name_without_dot disk (FileReader.make "docs") "notes" H).
Defined.

(** A threshold of 1.5 is replaced by the default. *)
Lemma parse_threshold_witness :
  exists cfg,
    Main.parse folder read_number ["prog"; "docs"; "out.csv"; "1.5"]%string
    = Some (inl cfg) /\
    Main.threshold cfg = Main.default_threshold /\
    accepted (Main.threshold cfg).
Proof.
  eexists. split; [vm_compute; reflexivity|]. split; [reflexivity|].
  apply (parse_threshold folder read_number ["prog"; "docs"; "out.csv"; "1.5"]%string).
  vm_compute. reflexivity.
Defined.

(** In file mode the argument [0.5] is the name of the report. *)
Lemma file_mode_dotted_arguments_witness :
  Forall (fun arg => StdString.size arg < StdString.npos /\ dotted arg) dotted_run /\
  exists cfg,
    Main.parse folder read_number ("prog" :: "-f" :: dotted_run)%string = Some (inl cfg) /\
    Main.threshold cfg = Main.default_threshold.
Proof.
  assert (H1 : "-f"%string = "-f"%string \/ "-f"%string = "--files"%string)
    by (left; reflexivity).
  assert (H2 : Forall (fun arg => StdString.size arg < StdString.npos /\ dotted arg)
                 dotted_run).
  { repeat constructor; try discriminate. }
  split; [exact H2|].
  exact (file_mode_dotted_arguments folder read_number "prog" "-f" dotted_run H1 H2).
Defined.


(** A run over the folder [docs]. *)
Lemma main_completes_witness :
  exists run,
    Main.main disk folder read_number Log10.log10 FixedFormat.put_fixed
      (FixedFormat.put_fixed 0) (fun _ => true) folder_run = Some run /\
    Main.exit_code run = 0 /\
    Main.report run <> None.
Proof.
  assert (H1 : Main.parse folder read_number folder_run = Some (inl folder_config))
    by (vm_compute; reflexivity).
  assert (H2 : Main.fill_names folder_config = Some folder_config) by reflexivity.
  eassert (H3 : Main.loadDocuments disk TextCleaner.make
                  (Main.filePaths folder_config) = Some (_, _))
    by (vm_compute; reflexivity).
  destruct (main_completes disk folder read_number Log10.log10 FixedFormat.put_fixed
              (FixedFormat.put_fixed 0) (fun _ => true) folder_run folder_config
              folder_config _ _
              H1 H2 H3 ltac:(discriminate) ltac:(vm_compute; discriminate))
    as (checker & run & _ & Hmain & Hexit & Hreport).
  exists run. split; [exact Hmain|]. split; [exact Hexit|].
  rewrite Hreport. discriminate.
Defined.

(** In that run the empty file [a.txt] leaves no document, and the rows of
    the three documents of [b.txt], [c.TXT] and [d.txt] carry the names of
    the first three files. *)
Example skipped_file_moves_names :
  option_map Main.report
    (Main.main disk folder read_number Log10.log10 FixedFormat.put_fixed
       (FixedFormat.put_fixed 0) (fun _ => true) folder_run)
  = Some (Some (lines
            [ ReportWriter.header;
              ReportWriter.quote; "a.txt vs b.txt"; ReportWriter.quote;
              ",100.00%,Yes"; ReportWriter.newline;
              ReportWriter.quote; "a.txt vs c.TXT"; ReportWriter.quote;
              ",0.00%,No"; ReportWriter.newline;
              ReportWriter.quote; "b.txt vs c.TXT"; ReportWriter.quote;
              ",0.00%,No"; ReportWriter.newline ]))%string.
Proof. vm_compute. reflexivity. Qed.

End MoreExamples.
